(** * Table grids, bounding-box geometry and cell lookup of the ADE example scripts

    A shallow embedding of the table logic of
    [skill_v1/scripts/handle_tables.py], [get_pdf_table_cell.py] and
    [get_spreadsheet_cell.py], followed by the properties proved of it.

    Conventions of the embedding:
    - Python [int] is [Z]; [range(a, b)] is [seqZ a (b - a)].
    - Python [str] is [string], a character being a code point below 256;
      [\w], [str.strip] and [repr] classify these code points as Python
      does.
    - Bounding-box coordinates are exact rationals [Q]; the literal [0.01]
      is the rational 1/100.
    - [response.grounding] is a dict; it is given by its [items()], a list
      of pairs in iteration order.  Dicts built by the scripts whose
      iteration order cannot be observed in the result are [gmap]s.
    - A call that raises is [Raise e]; a call that returns is [Return v].
    - [print] and file output are not modelled. *)

From Stdlib Require Import ZArith QArith Ascii String List Bool Lia.
From stdpp Require Import base decidable option list list_numbers gmap strings pretty sorting.

Local Open Scope string_scope.
Local Open Scope Z_scope.

(** ** Python values and exceptions *)

Module Py.

Inductive exn : Type :=
| ValueError (msg : string)
| KeyError (msg : string)
| IndexError (msg : string).

Inductive result (A : Type) : Type :=
| Return (v : A)
| Raise (e : exn).
Arguments Return {A} v.
Arguments Raise {A} e.

(** [range(a, b)] *)
Definition range (a b : Z) : list Z := seqZ a (b - a).

(** [max(xs)] of a sequence of ints; [None] when it is empty, where
    Python raises. *)
Definition max (xs : list Z) : option Z :=
  match xs with
  | [] => None
  | x0 :: rest => Some (foldl Z.max x0 rest)
  end.

(** [str(n)] for an int *)
Definition str (n : Z) : string := pretty n.

(** [sep.join(parts)] *)
Definition join (sep : string) (parts : list string) : string :=
  String.concat sep parts.

(** [seq[i]] on a list, with Python's negative indices *)
Definition getitem {A : Type} (l : list A) (i : Z) : result A :=
  let n := Z.of_nat (length l) in
  let j := if i <? 0 then i + n else i in
  if (j <? 0) || (n <=? j) then Raise (IndexError "list index out of range")
  else match l !! Z.to_nat j with
       | Some x => Return x
       | None => Raise (IndexError "list index out of range")
       end.

(** [list(enumerate(l, start))] *)
Fixpoint enumerate_from {A : Type} (start : Z) (l : list A) : list (Z * A) :=
  match l with
  | [] => []
  | x :: l' => (start, x) :: enumerate_from (start + 1) l'
  end.

Definition enumerate {A : Type} (l : list A) : list (Z * A) :=
  enumerate_from 0 l.

(** [s.strip()]: whitespace is removed at both ends. *)
Definition isspace (c : ascii) : bool :=
  let n := nat_of_ascii c in
  ((9 <=? n) && (n <=? 13) || (28 <=? n) && (n <=? 32) ||
   (n =? 133) || (n =? 160))%nat.

Fixpoint lstrip (s : string) : string :=
  match s with
  | String c s' => if isspace c then lstrip s' else s
  | EmptyString => EmptyString
  end.

Fixpoint rstrip (s : string) : string :=
  match s with
  | String c s' =>
      match rstrip s' with
      | EmptyString => if isspace c then EmptyString else String c EmptyString
      | t => String c t
      end
  | EmptyString => EmptyString
  end.

Definition strip (s : string) : string := rstrip (lstrip s).

(** [repr(s)] of a string *)
Definition hexdigit (n : nat) : ascii :=
  default "0"%char (list_ascii_of_string "0123456789abcdef" !! n).

Definition dquote : ascii := ascii_of_nat 34.
Definition squote : ascii := "'"%char.
Definition backslash : ascii := ascii_of_nat 92.

Definition has_char (c : ascii) (s : string) : bool :=
  existsb (Ascii.eqb c) (list_ascii_of_string s).

Definition repr_char (quote c : ascii) : string :=
  let n := nat_of_ascii c in
  if Ascii.eqb c backslash then String backslash (String backslash EmptyString)
  else if Ascii.eqb c quote then String backslash (String quote EmptyString)
  else if (n =? 10)%nat then String backslash "n"
  else if (n =? 13)%nat then String backslash "r"
  else if (n =? 9)%nat then String backslash "t"
  else if ((n <? 32) || (127 <=? n) && (n <=? 160) || (n =? 173))%nat
  then String backslash
         (String "x" (String (hexdigit (n / 16)) (String (hexdigit (n mod 16)) EmptyString)))
  else String c EmptyString.

Definition repr_str (s : string) : string :=
  let quote := if has_char squote s && negb (has_char dquote s)
               then dquote else squote in
  String quote
    (String.concat EmptyString (repr_char quote <$> list_ascii_of_string s)
     +:+ String quote EmptyString).

(** [repr] of a list, given the [repr] of its items *)
Definition repr_list {A : Type} (repr_item : A → string) (l : list A)
    : string :=
  "[" +:+ join ", " (repr_item <$> l) +:+ "]".

(** [repr((a, b))] of a pair of ints *)
Definition repr_pair (p : Z * Z) : string :=
  "(" +:+ str p.1 +:+ ", " +:+ str p.2 +:+ ")".

(** [sorted(l)] of a list of pairs of ints: lexicographic order *)
Definition pair_le (a b : Z * Z) : Prop :=
  a.1 < b.1 ∨ (a.1 = b.1 ∧ a.2 ≤ b.2).

#[global] Instance pair_le_dec (a b : Z * Z) : Decision (pair_le a b).
Proof. unfold pair_le. apply _. Defined.

Definition sorted (l : list (Z * Z)) : list (Z * Z) := merge_sort pair_le l.

End Py.

(** ** The [re] module, for the constructs the scripts' patterns use

    A backtracking matcher in the order Python tries alternatives: a greedy
    repetition takes one more iteration before it tries the rest of the
    pattern, a lazy one tries the rest first.  Every repetition in the
    scripts has a one-character body, and no pattern matches the empty
    string. *)

Module Re.

Inductive regex : Type :=
| Eps
| Chr (c : ascii)              (* a literal character *)
| Dot                          (* [.] under [re.DOTALL] *)
| OneOf (cs : list ascii)      (* [[...]] *)
| NoneOf (cs : list ascii)     (* [[^...]] *)
| WordBoundary                 (* [\b] *)
| Cat (r1 r2 : regex)
| Star (r : regex)             (* [r*] *)
| Plus (r : regex)             (* [r+] *)
| LazyStar (r : regex)         (* [r*?] *)
| Group (r : regex).           (* [(r)] *)

Fixpoint lit (s : string) : regex :=
  match s with
  | EmptyString => Eps
  | String c s' => Cat (Chr c) (lit s')
  end.

Fixpoint seq (rs : list regex) : regex :=
  match rs with
  | [] => Eps
  | r :: rs' => Cat r (seq rs')
  end.

(** The position of the matcher: the character before it, the text after
    it, and the groups closed so far. *)
Record mstate : Type := MState {
  prev : option ascii; rest : string; groups : list string }.

(** [\w]: the alphanumeric code points and the underscore *)
Definition isword (c : ascii) : bool :=
  let n := nat_of_ascii c in
  ((48 <=? n) && (n <=? 57) || (65 <=? n) && (n <=? 90) ||
   (97 <=? n) && (n <=? 122) || (n =? 95) ||
   (n =? 170) || (n =? 178) || (n =? 179) || (n =? 181) || (n =? 185) ||
   (n =? 186) || (188 <=? n) && (n <=? 190) ||
   (192 <=? n) && (n <=? 214) || (216 <=? n) && (n <=? 246) ||
   (248 <=? n))%nat.

Definition isword_opt (c : option ascii) : bool :=
  match c with Some c => isword c | None => false end.

Definition next (s : string) : option ascii :=
  match s with String c _ => Some c | EmptyString => None end.

Definition step (p : ascii → bool) (st : mstate)
    (k : mstate → option mstate) : option mstate :=
  match rest st with
  | String c s' => if p c then k (MState (Some c) s' (groups st)) else None
  | EmptyString => None
  end.

Definition consumed (st st' : mstate) : string :=
  substring 0 (String.length (rest st) - String.length (rest st')) (rest st).

Definition inset (cs : list ascii) (c : ascii) : bool :=
  existsb (Ascii.eqb c) cs.

Fixpoint run (r : regex) (st : mstate) (k : mstate → option mstate)
    {struct r} : option mstate :=
  match r with
  | Eps => k st
  | Chr c => step (Ascii.eqb c) st k
  | Dot => step (λ _, true) st k
  | OneOf cs => step (inset cs) st k
  | NoneOf cs => step (λ c, negb (inset cs c)) st k
  | WordBoundary =>
      if xorb (isword_opt (prev st)) (isword_opt (next (rest st)))
      then k st else None
  | Cat r1 r2 => run r1 st (λ st', run r2 st' k)
  | Star r1 =>
      (fix more (n : nat) (st : mstate) : option mstate :=
         match n with
         | O => k st
         | S n' =>
             match run r1 st (more n') with
             | Some m => Some m
             | None => k st
             end
         end) (String.length (rest st)) st
  | Plus r1 =>
      run r1 st
        ((fix more (n : nat) (st : mstate) : option mstate :=
           match n with
           | O => k st
           | S n' =>
               match run r1 st (more n') with
               | Some m => Some m
               | None => k st
               end
           end) (String.length (rest st)))
  | LazyStar r1 =>
      (fix more (n : nat) (st : mstate) : option mstate :=
         match k st with
         | Some m => Some m
         | None =>
             match n with
             | O => None
             | S n' => run r1 st (more n')
             end
         end) (String.length (rest st)) st
  | Group r1 =>
      run r1 st (λ st',
        k (MState (prev st') (rest st') (groups st' ++ [consumed st st'])))
  end.

(** A match object: [m.group(0)] and the numbered groups. *)
Record Match : Type := MkMatch { whole : string; subgroups : list string }.

Definition group (m : Match) (i : nat) : string :=
  match i with
  | O => whole m
  | S j => default EmptyString (subgroups m !! j)
  end.

(** One left-to-right scan: the characters outside every match, and the
    successive non-overlapping matches. *)
Fixpoint scan (fuel : nat) (r : regex) (before : option ascii) (s : string)
    : list (ascii + Match) :=
  match fuel with
  | O => []
  | S fuel' =>
      let st := MState before s [] in
      match run r st Some with
      | Some st' =>
          let m := MkMatch (consumed st st') (groups st') in
          match String.length (consumed st st'), s with
          | O, String c s' => inr m :: inl c :: scan fuel' r (Some c) s'
          | O, EmptyString => [inr m]
          | _, _ => inr m :: scan fuel' r (prev st') (rest st')
          end
      | None =>
          match s with
          | String c s' => inl c :: scan fuel' r (Some c) s'
          | EmptyString => []
          end
      end
  end.

Definition finditer (r : regex) (s : string) : list Match :=
  omap (λ x, match x with inr m => Some m | inl _ => None end)
       (scan (S (String.length s)) r None s).

(** [re.findall] for a pattern with exactly one group *)
Definition findall (r : regex) (s : string) : list string :=
  (λ m, group m 1) <$> finditer r s.

Definition sub (r : regex) (repl : string) (s : string) : string :=
  foldr (λ x acc, match x with
                  | inl c => String c acc
                  | inr _ => repl +:+ acc
                  end)
        EmptyString (scan (S (String.length s)) r None s).

End Re.

(** ** The parse response consumed by the scripts *)

Module Box.
Record t : Type := mk { left : Q; top : Q; right : Q; bottom : Q }.

(** Two boxes with the same four coordinates, as numbers. *)
Definition same (a b : t) : Prop :=
  (left a == left b ∧ top a == top b ∧ right a == right b ∧
   bottom a == bottom b)%Q.
End Box.

Module Position.
Record t : Type := mk {
  row : Z; col : Z; rowspan : Z; colspan : Z; chunk_id : string }.
End Position.

Module Grounding.
(** [position] is [None] when [hasattr(grounding, 'position')] is false. *)
Record t : Type := mk {
  type : string; page : Z; box : Box.t; position : option Position.t }.
End Grounding.

Module Chunk.
Record t : Type := mk { id : string; type : string; markdown : string }.
End Chunk.

Module Response.
Record t : Type := mk {
  chunks : list Chunk.t;
  grounding : list (string * Grounding.t) }.
End Response.

(** [[c for c in response.chunks if c.type == 'table']], the first step of
    every script that works on table chunks. *)
Definition table_chunks (response : Response.t) : list Chunk.t :=
  filter (λ c, Chunk.type c = "table") (Response.chunks response).

(** ** handle_tables.py *)

Module HandleTables.

(** The test of lines 41-44, [cell.box] against [table.box]. *)
Definition tolerance : Q := 0.01.

Definition contains (outer inner : Box.t) : bool :=
  Qle_bool (Box.left outer - tolerance) (Box.left inner) &&
  Qle_bool (Box.right inner) (Box.right outer + tolerance) &&
  Qle_bool (Box.top outer - tolerance) (Box.top inner) &&
  Qle_bool (Box.bottom inner) (Box.bottom outer + tolerance).

(** The condition under which [analyze_table_structure] appends a cell to
    [table_cells] (lines 39-45). *)
Definition cell_in_table (table cell : Grounding.t) : bool :=
  match Grounding.position cell with
  | Some _ =>
      bool_decide (Grounding.page cell = Grounding.page table) &&
      contains (Grounding.box table) (Grounding.box cell)
  | None => false
  end.

(** *** analyze_table_structure *)

Definition of_type (ty : string) (items : list (string * Grounding.t))
    : list (string * Grounding.t) :=
  filter (λ it, Grounding.type it.2 = ty) items.

(** [table_cells] of lines 37-45 *)
Definition table_cells_within (table : Grounding.t)
    (cells : list (string * Grounding.t)) : list (string * Grounding.t) :=
  filter (λ it, cell_in_table table it.2 = true) cells.

(** Lines 51-55: [(max_row + 1, max_col + 1)], the dimensions printed. *)
Definition span_dimensions (table_cells : list (string * Grounding.t))
    : option (Z * Z) :=
  let positions := omap (λ it, Grounding.position it.2) table_cells in
  max_row ← Py.max ((λ p, Position.row p + Position.rowspan p - 1) <$> positions);
  max_col ← Py.max ((λ p, Position.col p + Position.colspan p - 1) <$> positions);
  Some (max_row + 1, max_col + 1).

Record TableReport : Type := MkReport {
  table_id : string;
  table_page : Z;
  n_cells : nat;
  dimensions : option (Z * Z) }.

(** The values printed for each table, in the order of the loop. *)
Definition analyze_table_structure (response : Response.t)
    : list TableReport :=
  let items := Response.grounding response in
  let tables := of_type "table" items in
  let cells := of_type "tableCell" items in
  (λ t, let table_cells := table_cells_within t.2 cells in
        MkReport t.1 (Grounding.page t.2) (length table_cells)
                 (span_dimensions table_cells)) <$> tables.

(** *** extract_table_to_dataframe *)

(** A [pandas.DataFrame] with integer labels.  [loc] of a missing label
    raises [KeyError] ([None]); an unset entry is NaN ([Some None]).
    Assigning through [loc] to a missing label enlarges the frame. *)
Record DataFrame : Type := MkDataFrame {
  index : list Z;
  columns : list Z;
  entries : gmap (Z * Z) string }.

Definition add_label (labels : list Z) (x : Z) : list Z :=
  if decide (x ∈ labels) then labels else labels ++ [x].

Definition loc_set (df : DataFrame) (r c : Z) (v : string) : DataFrame :=
  MkDataFrame (add_label (index df) r) (add_label (columns df) c)
              (<[(r, c) := v]> (entries df)).

Definition loc (df : DataFrame) (r c : Z) : option (option string) :=
  if decide (r ∈ index df ∧ c ∈ columns df)
  then Some (entries df !! (r, c)) else None.

(** Cells of the table chunk, lines 77-81: the ids and positions of the
    pairs appended to [table_cells]. *)
Definition cells_of_chunk (table_chunk : Chunk.t)
    (items : list (string * Grounding.t)) : list (string * Position.t) :=
  omap (λ it,
          if decide (Grounding.type it.2 = "tableCell") then
            pos ← Grounding.position it.2;
            if decide (Position.chunk_id pos = Chunk.id table_chunk)
            then Some (it.1, pos) else None
          else None) items.

Definition cell_content (pos : Position.t) : string :=
  "Cell R" +:+ Py.str (Position.row pos) +:+ "C" +:+ Py.str (Position.col pos).

(** Lines 105-106 *)
Definition write_entry (max_row max_col : Z) (content : string) (r : Z)
    (df : DataFrame) (c : Z) : DataFrame :=
  if (r <=? max_row) && (c <=? max_col) then loc_set df r c content else df.

(** Lines 97-106, the body of the loop over [table_cells]. *)
Definition write_cell (max_row max_col : Z) (df : DataFrame)
    (pos : Position.t) : DataFrame :=
  let content := cell_content pos in
  foldl (λ df r,
    foldl (write_entry max_row max_col content r) df
      (Py.range (Position.col pos) (Position.col pos + Position.colspan pos)))
    df (Py.range (Position.row pos) (Position.row pos + Position.rowspan pos)).

(** Lines 96-106, the loop over [table_cells]. *)
Definition write_cells (max_row max_col : Z) (df : DataFrame)
    (table_cells : list (string * Position.t)) : DataFrame :=
  foldl (λ df c, write_cell max_row max_col df c.2) df table_cells.

(** Lines 88-106 on a non-empty [table_cells]. *)
Definition fill_dataframe (table_cells : list (string * Position.t))
    : option DataFrame :=
  max_row ← Py.max ((λ c, Position.row c.2) <$> table_cells);
  max_col ← Py.max ((λ c, Position.col c.2) <$> table_cells);
  let df := MkDataFrame (Py.range 0 (max_row + 1)) (Py.range 0 (max_col + 1)) ∅ in
  Some (write_cells max_row max_col df table_cells).

(** [None] is the Python [None] of the two early returns. *)
Definition extract_table_to_dataframe (response : Response.t)
    : option DataFrame :=
  match table_chunks response with
  | [] => None
  | table_chunk :: _ =>
      fill_dataframe (cells_of_chunk table_chunk (Response.grounding response))
  end.

(** The coordinates a cell occupies: [(row + i, col + j)] for
    [0 <= i < rowspan], [0 <= j < colspan]. *)
Definition occupies (pos : Position.t) (r c : Z) : Prop :=
  Position.row pos ≤ r < Position.row pos + Position.rowspan pos ∧
  Position.col pos ≤ c < Position.col pos + Position.colspan pos.

(** No coordinate is occupied by two cells of the list. *)
Definition non_overlapping (cells : list (string * Position.t)) : Prop :=
  ∀ (i j : nat) (x y : string * Position.t) (r c : Z),
    cells !! i = Some x → cells !! j = Some y → i ≠ j →
    occupies x.2 r c → ¬ occupies y.2 r c.

(** Every entry of the frame sits at a row label and a column label. *)
Definition labelled (df : DataFrame) : Prop :=
  ∀ r c, is_Some (entries df !! (r, c)) → r ∈ index df ∧ c ∈ columns df.

(** *** reconstruct_table_markdown *)

Record CellData : Type := MkCellData {
  id : string; rowspan : Z; colspan : Z; content : string }.

(** Lines 185-196 *)
Definition collect_cells_data (table_chunk : Chunk.t)
    (items : list (string * Grounding.t)) : gmap (Z * Z) CellData :=
  foldl (λ cells_data it,
    if decide (Grounding.type it.2 = "tableCell") then
      match Grounding.position it.2 with
      | Some pos =>
          if decide (Position.chunk_id pos = Chunk.id table_chunk) then
            <[(Position.row pos, Position.col pos) :=
                MkCellData it.1 (Position.rowspan pos) (Position.colspan pos)
                  ("Cell" +:+ Py.str (Position.row pos) +:+ Py.str (Position.col pos))]>
              cells_data
          else cells_data
      | None => cells_data
      end
    else cells_data) ∅ items.

(** The loop of lines 226-232: some stored cell covers [(row, col)] from
    another anchor. *)
Definition covers (row col : Z) (kv : Z * Z * CellData) : bool :=
  let '(r, c, cell) := kv in
  bool_decide (r ≤ row < r + rowspan cell) &&
  bool_decide (c ≤ col < c + colspan cell) &&
  (negb (r =? row) || negb (c =? col)).

(** The string appended to [row_cells] for [(row, col)], lines 212-235. *)
Definition cell_text (cells_data : gmap (Z * Z) CellData) (row col : Z)
    : string :=
  match cells_data !! (row, col) with
  | Some cell =>
      content cell
      +:+ (if 1 <? colspan cell
           then " (spans " +:+ Py.str (colspan cell) +:+ " cols)" else "")
      +:+ (if 1 <? rowspan cell
           then " (spans " +:+ Py.str (rowspan cell) +:+ " rows)" else "")
  | None =>
      if existsb (covers row col) (map_to_list cells_data) then "^^" else ""
  end.

(** [row_cells] at the end of the inner loop, lines 210-235. *)
Definition row_cells (cells_data : gmap (Z * Z) CellData) (max_col row : Z)
    : list string :=
  cell_text cells_data row <$> Py.range 0 (max_col + 1).

(** Line 238 *)
Definition row_line (cells_data : gmap (Z * Z) CellData) (max_col row : Z)
    : string :=
  "| " +:+ Py.join " | " (row_cells cells_data max_col row) +:+ " |".

(** Line 242 *)
Definition separator (max_col : Z) : string :=
  "|" +:+ Py.join "|" ((λ _, " --- ") <$> Py.range 0 (max_col + 1)) +:+ "|".

(** [markdown_lines] after the loop of lines 209-243. *)
Definition markdown_lines (cells_data : gmap (Z * Z) CellData)
    (max_row max_col : Z) : list string :=
  row ← Py.range 0 (max_row + 1);
  row_line cells_data max_col row ::
    (if row =? 0 then [separator max_col] else []).

Definition newline : string := String (ascii_of_nat 10) EmptyString.

Definition render_markdown (cells_data : gmap (Z * Z) CellData)
    : option string :=
  let keys := (map_to_list cells_data).*1 in
  max_row ← Py.max (fst <$> keys);
  max_col ← Py.max (snd <$> keys);
  Some (Py.join newline (markdown_lines cells_data max_row max_col)).

Definition reconstruct_table_markdown (response : Response.t)
    : option string :=
  match table_chunks response with
  | [] => None
  | table_chunk :: _ =>
      render_markdown
        (collect_cells_data table_chunk (Response.grounding response))
  end.

(** *** extract_nested_tables *)

Definition inside (inner outer : Box.t) : bool :=
  Qle_bool (Box.left outer) (Box.left inner) &&
  Qle_bool (Box.right inner) (Box.right outer) &&
  Qle_bool (Box.top outer) (Box.top inner) &&
  Qle_bool (Box.bottom inner) (Box.bottom outer).

Inductive Ordering : Type := AContainsB | BContainsA | Neither.

(** The [if]/[elif] of lines 398-410 on [table1], [table2]. *)
Definition nested (table1 table2 : Grounding.t) : Ordering :=
  if inside (Grounding.box table2) (Grounding.box table1) then AContainsB
  else if inside (Grounding.box table1) (Grounding.box table2) then BContainsA
  else Neither.

Definition nested_pair (t1 t2 : string * Grounding.t)
    : list (string * string) :=
  match nested t1.2 t2.2 with
  | AContainsB => [(t1.1, t2.1)]
  | BContainsA => [(t2.1, t1.1)]
  | Neither => []
  end.

(** The pairs [i < j] of the double loop, in its order. *)
Fixpoint nested_pairs (tables : list (string * Grounding.t))
    : list (string * string) :=
  match tables with
  | [] => []
  | t1 :: later => (t2 ← later; nested_pair t1 t2) ++ nested_pairs later
  end.

Definition extract_nested_tables (response : Response.t)
    : list (string * string) :=
  nested_pairs (of_type "table" (Response.grounding response)).

End HandleTables.

(** ** get_pdf_table_cell.py *)

Module GetPdfTableCell.

(** [<tr[^>]*>(.*?)</tr>] *)
Definition tr_re : Re.regex :=
  Re.seq [Re.lit "<tr"; Re.Star (Re.NoneOf [">"%char]); Re.Chr ">";
          Re.Group (Re.LazyStar Re.Dot); Re.lit "</tr>"].

(** [<td[^>]*>(.*?)</td>] *)
Definition td_re : Re.regex :=
  Re.seq [Re.lit "<td"; Re.Star (Re.NoneOf [">"%char]); Re.Chr ">";
          Re.Group (Re.LazyStar Re.Dot); Re.lit "</td>"].

(** [<[^>]+>] *)
Definition tag_re : Re.regex :=
  Re.seq [Re.Chr "<"; Re.Plus (Re.NoneOf [">"%char]); Re.Chr ">"].

(** Line 33: the text stored for one [<td>] match. *)
Definition td_value (m : Re.Match) : string :=
  Py.strip (Re.sub tag_re "" (Re.group m 1)).

(** Lines 30-33: the loop over the [<td>] matches of row [r], with
    [enumerate] counting from [k]. *)
Definition fill_row (r k : Z) (grid : gmap (Z * Z) string)
    (tds : list Re.Match) : gmap (Z * Z) string :=
  foldl (λ grid cm, <[(r, cm.1) := td_value cm.2]> grid) grid
        (Py.enumerate_from k tds).

(** Lines 29-33: the loop over the rows, with [enumerate] counting from
    [k]. *)
Definition fill_rows (k : Z) (grid : gmap (Z * Z) string)
    (rows : list string) : gmap (Z * Z) string :=
  foldl (λ grid rr, fill_row rr.1 0 grid (Re.finditer td_re rr.2)) grid
        (Py.enumerate_from k rows).

(** Lines 27-33: the grid parsed from the table's HTML. *)
Definition parse_grid (markdown : string) : gmap (Z * Z) string :=
  fill_rows 0 ∅ (Re.findall tr_re markdown).

(** The [j]-th [<td>] match of the [i]-th of [rows]. *)
Definition td_at (rows : list string) (i j : Z) : option Re.Match :=
  if decide (0 ≤ i ∧ 0 ≤ j)
  then row_html ← rows !! Z.to_nat i; Re.finditer td_re row_html !! Z.to_nat j
  else None.

(** [get_pdf_cell] on the response of [client.parse]. *)
Definition get_pdf_cell (response : Response.t) (row col table_index : Z)
    : Py.result string :=
  let tables := table_chunks response in
  match tables with
  | [] => Py.Raise (Py.ValueError "No tables found in document")
  | _ =>
      if Z.of_nat (length tables) <=? table_index then
        Py.Raise (Py.ValueError
          ("Table index " +:+ Py.str table_index +:+ " out of range ("
           +:+ Py.str (Z.of_nat (length tables)) +:+ " tables found)"))
      else
        match Py.getitem tables table_index with
        | Py.Raise e => Py.Raise e
        | Py.Return table =>
            let grid := parse_grid (Chunk.markdown table) in
            match grid !! (row, col) with
            | None =>
                Py.Raise (Py.KeyError
                  ("No cell at (" +:+ Py.str row +:+ ", " +:+ Py.str col
                   +:+ "). Available: "
                   +:+ Py.repr_list Py.repr_pair
                         (Py.sorted (map_to_list grid).*1)))
            | Some v => Py.Return v
            end
        end
  end.

End GetPdfTableCell.

(** ** get_spreadsheet_cell.py *)

Module GetSpreadsheetCell.

Definition quotes : list ascii := [Py.dquote; Py.squote].

(** [<td[^>]*\bid=[Q']([^Q']+)[Q']], where [Q] stands for the double
    quote: the pattern of line 38. *)
Definition id_re : Re.regex :=
  Re.seq [Re.lit "<td"; Re.Star (Re.NoneOf [">"%char]); Re.WordBoundary;
          Re.lit "id="; Re.OneOf quotes; Re.Group (Re.Plus (Re.NoneOf quotes));
          Re.OneOf quotes].

(** [<td[^>]*\bid=[Q']([^Q']+)[Q'][^>]*>(.*?)</td>], the pattern of
    line 27. *)
Definition id_cell_re : Re.regex :=
  Re.seq [id_re; Re.Star (Re.NoneOf [">"%char]); Re.Chr ">";
          Re.Group (Re.LazyStar Re.Dot); Re.lit "</td>"].

Definition tag_re : Re.regex :=
  Re.seq [Re.Chr "<"; Re.Plus (Re.NoneOf [">"%char]); Re.Chr ">"].

(** Lines 26-32: the dict [cell_text] of one table. *)
Definition cell_text (markdown : string) : gmap string string :=
  foldl (λ cell_text m,
           <[Re.group m 1 := Py.strip (Re.sub tag_re "" (Re.group m 2))]> cell_text)
        ∅ (Re.finditer id_cell_re markdown).

(** The loop of lines 25-35: the first table that has the id. *)
Fixpoint search (tables : list Chunk.t) (cell_id : string) : option string :=
  match tables with
  | [] => None
  | table :: tables' =>
      match cell_text (Chunk.markdown table) !! cell_id with
      | Some v => Some v
      | None => search tables' cell_id
      end
  end.

(** Lines 37-40: [available] *)
Definition available_ids (tables : list Chunk.t) : list string :=
  table ← tables;
  (λ m, Re.group m 1) <$> Re.finditer id_re (Chunk.markdown table).

Definition not_found_message (cell_id : string) (shown : list string)
    : string :=
  "Cell '" +:+ cell_id +:+ "' not found. Available IDs: "
  +:+ Py.repr_list Py.repr_str shown +:+ "...".

Definition get_spreadsheet_cell (response : Response.t) (cell_id : string)
    : Py.result string :=
  let tables := table_chunks response in
  match tables with
  | [] => Py.Raise (Py.ValueError "No tables found in spreadsheet")
  | _ =>
      match search tables cell_id with
      | Some v => Py.Return v
      | None =>
          Py.Raise (Py.KeyError
            (not_found_message cell_id (take 10 (available_ids tables))))
      end
  end.

End GetSpreadsheetCell.

(** ** handle_tables.py, the other examples *)

Module FindSpecificCells.

(** The four lists of lines 132-155. *)
Record Found : Type := MkFound {
  header_cells : list (string * Grounding.t);
  first_column : list (string * Grounding.t);
  merged_cells : list (string * Grounding.t);
  corner_cells : list (string * Grounding.t) }.

Definition position_test (p : Position.t → bool) (it : string * Grounding.t)
    : bool :=
  match Grounding.position it.2 with
  | Some pos => p pos
  | None => false
  end.

(** One round of the loop of lines 137-155: the cell is appended to each
    list whose test it passes. *)
Definition classify (found : Found) (it : string * Grounding.t) : Found :=
  let add (p : Position.t → bool) (l : list (string * Grounding.t)) :=
    if position_test p it then (l ++ [it])%list else l in
  MkFound
    (add (λ pos, Position.row pos =? 0) (header_cells found))
    (add (λ pos, Position.col pos =? 0) (first_column found))
    (add (λ pos, (1 <? Position.rowspan pos) || (1 <? Position.colspan pos))
         (merged_cells found))
    (add (λ pos, (Position.row pos =? 0) && (Position.col pos =? 0))
         (corner_cells found)).

(** [cells], which the function returns, and the lists it prints from. *)
Definition find_specific_cells (response : Response.t)
    : list (string * Grounding.t) * Found :=
  let cells := HandleTables.of_type "tableCell" (Response.grounding response) in
  (cells, foldl classify (MkFound [] [] [] []) cells).

(** Lines 158 and 162: the header and first-column cells that are shown. *)
Definition shown (l : list (string * Grounding.t)) : list (string * Grounding.t) :=
  take 5 l.

End FindSpecificCells.

Module ExtractWithHeaders.

(** Lines 268-276: [cells], keyed by position; the value holds the id and
    the content. *)
Definition collect_cells (table_chunk : Chunk.t)
    (items : list (string * Grounding.t)) : gmap (Z * Z) (string * string) :=
  foldl (λ cells it,
    if decide (Grounding.type it.2 = "tableCell") then
      match Grounding.position it.2 with
      | Some pos =>
          if decide (Position.chunk_id pos = Chunk.id table_chunk) then
            <[(Position.row pos, Position.col pos) :=
                (it.1, "Cell_" +:+ Py.str (Position.row pos) +:+ "_"
                               +:+ Py.str (Position.col pos))]> cells
          else cells
      | None => cells
      end
    else cells) ∅ items.

(** Lines 279-282 *)
Definition headers_of (cells : gmap (Z * Z) (string * string)) : list string :=
  omap (λ col, snd <$> cells !! (0, col)) (Py.range 0 10).

(** [d[k] = v] on a dict given by its items in insertion order *)
Fixpoint dict_set (k v : string) (d : list (string * string))
    : list (string * string) :=
  match d with
  | [] => [(k, v)]
  | kv :: d' => if decide (kv.1 = k) then (k, v) :: d' else kv :: dict_set k v d'
  end.

(** [d.get(k)] *)
Fixpoint dict_get (k : string) (d : list (string * string)) : option string :=
  match d with
  | [] => None
  | kv :: d' => if decide (kv.1 = k) then Some kv.2 else dict_get k d'
  end.

(** Lines 293-299: [row_data] after the loop over the headers. *)
Definition row_data_of (cells : gmap (Z * Z) (string * string))
    (headers : list string) (row : Z) : list (string * string) :=
  foldl (λ row_data ch,
           match cells !! (row, ch.1) with
           | Some cell => dict_set ch.2 cell.2 row_data
           | None => row_data
           end) [] (Py.enumerate headers).

(** Lines 294-299: [has_data] after the loop over the headers. *)
Definition has_data (cells : gmap (Z * Z) (string * string))
    (headers : list string) (row : Z) : bool :=
  existsb (λ ch, bool_decide (is_Some (cells !! (row, ch.1))))
          (Py.enumerate headers).

(** Lines 292-304: the loop over the rows, which stops at the first row
    without data. *)
Fixpoint collect_rows (cells : gmap (Z * Z) (string * string))
    (headers : list string) (rows : list Z) : list (list (string * string)) :=
  match rows with
  | [] => []
  | row :: rows' =>
      if has_data cells headers row
      then row_data_of cells headers row :: collect_rows cells headers rows'
      else []
  end.

Definition data_rows_of (cells : gmap (Z * Z) (string * string))
    (headers : list string) : list (list (string * string)) :=
  collect_rows cells headers (Py.range 1 100).

(** The rows from which the returned frame is built; [None] is the Python
    [None] of the early returns and of the last line. *)
Definition extract_table_with_headers (response : Response.t)
    : option (list (list (string * string))) :=
  match table_chunks response with
  | [] => None
  | table_chunk :: _ =>
      let cells := collect_cells table_chunk (Response.grounding response) in
      let headers := headers_of cells in
      match headers with
      | [] => None
      | _ =>
          match data_rows_of cells headers with
          | [] => None
          | data_rows => Some data_rows
          end
      end
  end.

End ExtractWithHeaders.

Module CompareTables.

(** A table chunk with the grounding it carries ([table_chunk.grounding]). *)
Record TableChunk : Type := MkTableChunk {
  chunk : Chunk.t; chunk_grounding : Grounding.t }.

Record TableInfo : Type := MkTableInfo {
  id : string; page : Z; cells : nat; rows : nat; cols : nat; area : Q }.

(** The positions counted for one table chunk, lines 341-346. *)
Definition positions_of (table_chunk : Chunk.t)
    (items : list (string * Grounding.t)) : list Position.t :=
  snd <$> HandleTables.cells_of_chunk table_chunk items.

Definition box_area (b : Box.t) : Q :=
  (Box.right b - Box.left b) * (Box.bottom b - Box.top b).

(** Lines 335-356, one round of the loop over the table chunks. *)
Definition table_info_of (items : list (string * Grounding.t))
    (tc : TableChunk) : TableInfo :=
  let positions := positions_of (chunk tc) items in
  let rows : gset Z := list_to_set (Position.row <$> positions) in
  let cols : gset Z := list_to_set (Position.col <$> positions) in
  MkTableInfo (Chunk.id (chunk tc)) (Grounding.page (chunk_grounding tc))
    (length positions) (size rows) (size cols)
    (box_area (Grounding.box (chunk_grounding tc))).

(** [table_info], which the function returns, for the chunks of the
    response and its grounding items. *)
Definition compare_tables (chunks : list TableChunk)
    (items : list (string * Grounding.t)) : list TableInfo :=
  table_info_of items <$> filter (λ tc, Chunk.type (chunk tc) = "table") chunks.

Definition same_dimensions (t1 t2 : TableInfo) : bool :=
  (rows t1 =? rows t2)%nat && (cols t1 =? cols t2)%nat.

(** Lines 368-374: the pairs [(i+1, j+1)] printed as having the same
    dimensions, from the tables numbered from [k]. *)
Fixpoint similar_from (k : nat) (table_info : list TableInfo)
    : list (nat * nat) :=
  match table_info with
  | [] => []
  | t1 :: later =>
      (((λ jt, (S k, S jt.1)) <$>
          filter (λ jt, same_dimensions t1 jt.2 = true)
                 (zip (seq (S k) (length later)) later))
       ++ similar_from (S k) later)%list
  end.

Definition similar_pairs (table_info : list TableInfo) : list (nat * nat) :=
  similar_from 0 table_info.

End CompareTables.

(** ** Sample documents *)

Module Samples.

Definition unit_box : Box.t := Box.mk 0 0 1 1.
Definition inner_box : Box.t := Box.mk 0.2 0.2 0.5 0.5.

Definition table_on (page : Z) (b : Box.t) : Grounding.t :=
  Grounding.mk "table" page b None.

Definition cell_at (page : Z) (b : Box.t) (chunk : string)
    (row col rowspan colspan : Z) : Grounding.t :=
  Grounding.mk "tableCell" page b
    (Some (Position.mk row col rowspan colspan chunk)).

Definition table_chunk (id markdown : string) : Chunk.t :=
  Chunk.mk id "table" markdown.

(** The same region detected twice, under two ids. *)
Definition duplicate_tables : Response.t :=
  Response.mk [] [("t1", table_on 0 inner_box); ("t2", table_on 0 inner_box)].

(** A table on page 0 and a cell, drawn inside its box, on page 1. *)
Definition page0_table : Grounding.t := table_on 0 unit_box.
Definition page1_cell : Grounding.t := cell_at 1 inner_box "t" 0 0 1 1.


Definition two_tables : Response.t :=
  Response.mk
    [table_chunk "t1" "<table><tr><td>a</td></tr></table>";
     Chunk.mk "c1" "text" "between";
     table_chunk "t2" "<table><tr><td>b</td></tr></table>"] [].

(** A sheet with three identified cells. *)
Definition small_sheet : Response.t :=
  Response.mk
    [table_chunk "s1"
       "<table><tr><td id='A1'>Name</td><td id='B1'>Amount</td></tr><tr><td id='A2' colspan='2'>Total</td></tr></table>"]
    [].

(** A 2x2 cell anchored at (1,1) followed by a cell anchored at (2,2):
    both claim (2,2). *)
Definition overlap_first : Position.t := Position.mk 1 1 2 2 "t".
Definition overlap_second : Position.t := Position.mk 2 2 1 1 "t".

Definition overlapping_cells : Response.t :=
  Response.mk [table_chunk "t" ""]
    [("g1", Grounding.mk "tableCell" 0 inner_box (Some overlap_first));
     ("g2", Grounding.mk "tableCell" 0 inner_box (Some overlap_second))].

(** One cell at row 5 that spans three rows, inside a table. *)
Definition tall_cell : Response.t :=
  Response.mk [table_chunk "t" ""]
    [("tg", table_on 0 unit_box);
     ("g1", cell_at 0 inner_box "t" 5 0 3 1)].

(** The table of the end-to-end scenario: a header row, a data row, and a
    row whose single cell spans both columns. *)
Definition totals_html : string :=
  "<table><tr><td>Name</td><td>Amount</td></tr><tr><td>Alice</td><td>100</td></tr><tr><td colspan='2'>Total</td></tr></table>".

Definition totals_pdf : Response.t :=
  Response.mk [table_chunk "t" totals_html] [].

Definition totals_cells : Response.t :=
  Response.mk [table_chunk "t" totals_html]
    [("h0", cell_at 0 inner_box "t" 0 0 1 1);
     ("h1", cell_at 0 inner_box "t" 0 1 1 1);
     ("a0", cell_at 0 inner_box "t" 1 0 1 1);
     ("a1", cell_at 0 inner_box "t" 1 1 1 1);
     ("tot", cell_at 0 inner_box "t" 2 0 1 2)].

End Samples.

(** ** Notions used to state properties of the texts *)

Module Text.

(** The number of occurrences of a character. *)
Fixpoint count_char (c : ascii) (s : string) : nat :=
  match s with
  | EmptyString => 0
  | String c' s' => (if Ascii.eqb c c' then 1 else 0) + count_char c s'
  end.

(** A tag: [<], a non-empty body without [>], and [>]. *)
Definition is_tag (t : string) : Prop :=
  ∃ body, t = "<" +:+ body +:+ ">" ∧ body ≠ "" ∧ count_char ">" body = 0%nat.

Definition contains_tag (s : string) : Prop :=
  ∃ pre t post, s = pre +:+ t +:+ post ∧ is_tag t.

Definition first_char (s : string) : option ascii :=
  match s with
  | String c _ => Some c
  | EmptyString => None
  end.

Fixpoint last_char (s : string) : option ascii :=
  match s with
  | EmptyString => None
  | String c EmptyString => Some c
  | String _ s' => last_char s'
  end.

(** Neither the first nor the last character is whitespace. *)
Definition stripped (s : string) : Prop :=
  (∀ c, first_char s = Some c → Py.isspace c = false) ∧
  (∀ c, last_char s = Some c → Py.isspace c = false).

(** The text is made of characters of the alphabet only. *)
Definition made_of (alphabet s : string) : Prop :=
  Forall (λ c, c ∈ list_ascii_of_string alphabet) (list_ascii_of_string s).

(** The characters of which [reconstruct_table_markdown] makes the text of
    a cell. *)
Definition cell_alphabet : string := "0123456789-Cel (spancowr)^".

End Text.

(** ** What the tag pattern matches, computed directly *)

Module ReSpec.

(** The repetition loop of [Re.run] for [r*] and [r+], by its fuel. *)
Definition greedy (r1 : Re.regex) (k : Re.mstate → option Re.mstate)
    : nat → Re.mstate → option Re.mstate :=
  fix more (n : nat) (st : Re.mstate) : option Re.mstate :=
    match n with
    | O => k st
    | S n' =>
        match Re.run r1 st (more n') with
        | Some m => Some m
        | None => k st
        end
    end.

(** The text before the first [>] and the text after it. *)
Fixpoint upto_gt (s : string) : option (string * string) :=
  match s with
  | EmptyString => None
  | String c s' =>
      if Ascii.eqb ">" c then Some (EmptyString, s')
      else match upto_gt s' with
           | Some (b, r) => Some (String c b, r)
           | None => None
           end
  end.

(** The text after a tag that begins the string. *)
Definition match_tag (s : string) : option string :=
  match s with
  | String c s1 =>
      if Ascii.eqb "<" c then
        match upto_gt s1 with
        | Some (String _ _, r) => Some r
        | _ => None
        end
      else None
  | EmptyString => None
  end.

(** [re.sub(tag, '', s)] read off a scan. *)
Definition drop_matches (items : list (ascii + Re.Match)) : string :=
  foldr (λ x acc, match x with
                  | inl c => String c acc
                  | inr _ => EmptyString +:+ acc
                  end) EmptyString items.

End ReSpec.

(** ** Further sample documents *)

Module MoreSamples.


(** Two anchors, at (0,0) and at (2,1): position (1,0) is within the
    bounds and no cell occupies it. *)
Definition sparse_cells : Response.t :=
  Response.mk [Samples.table_chunk "t" ""]
    [("a", Samples.cell_at 0 Samples.inner_box "t" 0 0 1 1);
     ("b", Samples.cell_at 0 Samples.inner_box "t" 2 1 1 1)].

End MoreSamples.

Module MoreSamples2.



End MoreSamples2.

Module MoreSamples3.

(** The table chunk of the scenario with the grounding it carries. *)
Definition totals_chunk : CompareTables.TableChunk :=
  CompareTables.MkTableChunk
    (Samples.table_chunk "t" Samples.totals_html)
    (Samples.table_on 0 Samples.unit_box).

(** A cell whose text is wrapped in markup and padded with blanks. *)
Definition styled_pdf : Response.t :=
  Response.mk
    [Samples.table_chunk "t"
       "<table><tr><td> <b>Total</b> <br/> </td></tr></table>"] [].

End MoreSamples3.

(** * Properties *)

Import HandleTables.

(** ** Bounding-box geometry *)

Lemma Qle_bool_true (x y : Q) : Qle_bool x y = true ↔ (x <= y)%Q.
Proof. apply Qle_bool_iff. Qed.





Lemma inside_same (a b : Box.t) : Box.same a b → inside b a = true.
Proof.
  intros (Hl & Ht & Hr & Hb). unfold inside.
  rewrite !andb_true_iff, !Qle_bool_true, Hl, Ht, Hr, Hb.
  repeat split; apply Qle_refl.
Qed.

(** C6, as the code has it: two records whose boxes have the same
    coordinates are reported as the second nested inside the first. *)
Theorem nested_equal_boxes (a b : Grounding.t)
    (Hbox : Box.same (Grounding.box a) (Grounding.box b)) :
  nested a b = AContainsB.
Proof. unfold nested. by rewrite (inside_same _ _ Hbox). Qed.

Lemma nested_equal_boxes_witness :
  nested (Samples.table_on 0 Samples.inner_box)
         (Samples.table_on 3 (Box.mk (1 # 5) (2 # 10) (1 # 2) (2 # 4))) = AContainsB.
Proof. apply nested_equal_boxes. vm_compute. repeat split; reflexivity. Defined.

(** C6 fails as stated: the region detected twice is not [Neither], and
    the pair is reported by [extract_nested_tables]. *)
Lemma nested_equal_boxes_not_neither :
  extract_nested_tables Samples.duplicate_tables = [("t1", "t2")] ∧
  ¬ (∀ a b : Grounding.t,
       Grounding.box a = Grounding.box b → nested a b = Neither).
Proof.
  split; [vm_compute; reflexivity|].
  intros H.
  specialize (H (Samples.table_on 0 Samples.inner_box)
                (Samples.table_on 0 Samples.inner_box) eq_refl).
  vm_compute in H. discriminate.
Qed.

(** C7, as the code has it: on different pages the membership test is
    false, and [nested] is decided by the two boxes alone. *)
Theorem mismatched_pages_compare (a b : Grounding.t)
    (Hpage : Grounding.page a ≠ Grounding.page b) :
  cell_in_table a b = false ∧
  ∀ a' b' : Grounding.t,
    Grounding.box a' = Grounding.box a → Grounding.box b' = Grounding.box b →
    nested a b = nested a' b'.
Proof.
  split.
  - unfold cell_in_table. destruct (Grounding.position b); [|done].
    rewrite bool_decide_eq_false_2; [done|]. intros E. by apply Hpage.
  - intros a' b' Ha Hb. unfold nested. by rewrite Ha, Hb.
Qed.

Lemma mismatched_pages_compare_witness :
  cell_in_table Samples.page0_table Samples.page1_cell = false ∧
  ∀ a' b' : Grounding.t,
    Grounding.box a' = Grounding.box Samples.page0_table →
    Grounding.box b' = Grounding.box Samples.page1_cell →
    nested Samples.page0_table Samples.page1_cell = nested a' b'.
Proof. apply mismatched_pages_compare. vm_compute. discriminate. Defined.

(** C7 fails as stated: with a table on page 0 and a cell on page 1 both
    computations return a value. *)
Lemma mismatched_pages_return_values :
  Grounding.page Samples.page0_table ≠ Grounding.page Samples.page1_cell ∧
  cell_in_table Samples.page0_table Samples.page1_cell = false ∧
  nested Samples.page0_table Samples.page1_cell = AContainsB.
Proof. vm_compute. repeat split; discriminate. Qed.

(** ** Table selection and lookup by identifier *)




Lemma search_absent (tables : list Chunk.t) (cell_id : string) :
  (∀ table, table ∈ tables →
     GetSpreadsheetCell.cell_text (Chunk.markdown table) !! cell_id = None) →
  GetSpreadsheetCell.search tables cell_id = None.
Proof.
  induction tables as [|t ts IH]; intros H; simpl; [done|].
  rewrite (H t) by left. apply IH. intros t' Ht'. apply H. by right.
Qed.

Lemma take_all_iff {A : Type} (n : nat) (l : list A) :
  take n l = l ↔ (length l ≤ n)%nat.
Proof.
  split.
  - intros E. apply (f_equal length) in E. rewrite length_take in E. lia.
  - apply take_ge.
Qed.

(** C9, as the code has it: the error lists the first ten known ids, at
    most ten of them; these are all the ids exactly when there are at most
    ten. *)
Theorem cell_not_found_lists_first_ten (response : Response.t)
    (cell_id : string)
    (Hsome : table_chunks response ≠ [])
    (Habsent : ∀ table, table ∈ table_chunks response →
       GetSpreadsheetCell.cell_text (Chunk.markdown table) !! cell_id = None) :
  let available :=
    GetSpreadsheetCell.available_ids (table_chunks response) in
  let shown := take 10 available in
  GetSpreadsheetCell.get_spreadsheet_cell response cell_id =
    Py.Raise (Py.KeyError (GetSpreadsheetCell.not_found_message cell_id shown)) ∧
  (length shown ≤ 10)%nat ∧
  shown `prefix_of` available ∧
  (shown = available ↔ (length available ≤ 10)%nat).
Proof.
  intros available shown. repeat split.
  - unfold GetSpreadsheetCell.get_spreadsheet_cell.
    rewrite (search_absent _ _ Habsent).
    by destruct (table_chunks response).
  - subst shown. rewrite length_take. lia.
  - apply prefix_take.
  - apply take_all_iff.
  - apply take_all_iff.
Qed.

Lemma cell_not_found_lists_first_ten_witness :
  GetSpreadsheetCell.get_spreadsheet_cell Samples.small_sheet "C1" =
    Py.Raise (Py.KeyError
      "Cell 'C1' not found. Available IDs: ['A1', 'B1', 'A2']...").
Proof.
  refine (eq_trans
    (proj1 (cell_not_found_lists_first_ten Samples.small_sheet "C1" _ _)) _).
  - vm_compute. discriminate.
  - intros table Ht. vm_compute in Ht.
    apply list_elem_of_singleton in Ht. subst table. vm_compute. reflexivity.
  - vm_compute. reflexivity.
Defined.

(** C9 fails as stated: a sheet with three identified cells gets all three
    of them in the error. *)
Lemma cell_not_found_full_list :
  GetSpreadsheetCell.available_ids
    (table_chunks Samples.small_sheet) = ["A1"; "B1"; "A2"] ∧
  GetSpreadsheetCell.get_spreadsheet_cell Samples.small_sheet "C1" =
    Py.Raise (Py.KeyError
      (GetSpreadsheetCell.not_found_message "C1" ["A1"; "B1"; "A2"])).
Proof. split; vm_compute; reflexivity. Qed.

(** ** The grid parsed from HTML *)

Import GetPdfTableCell.

Lemma fill_row_lookup (tds : list Re.Match) :
  ∀ (r k : Z) (grid : gmap (Z * Z) string) (r' c' : Z),
    fill_row r k grid tds !! (r', c') =
      match (if decide (r' = r ∧ k ≤ c')
             then tds !! Z.to_nat (c' - k) else None) with
      | Some m => Some (td_value m)
      | None => grid !! (r', c')
      end.
Proof.
  induction tds as [|x tds IH]; intros r k grid r' c'.
  - simpl. by case_decide.
  - unfold fill_row in *. simpl. rewrite IH.
    destruct (decide (r' = r ∧ k + 1 ≤ c')) as [[-> Hc]|Hn].
    + rewrite decide_True by (split; [done|lia]).
      replace (Z.to_nat (c' - k)) with (S (Z.to_nat (c' - (k + 1)))) by lia.
      simpl. destruct (tds !! Z.to_nat (c' - (k + 1))); [done|].
      rewrite lookup_insert_ne; [done|]. intros [=]. lia.
    + destruct (decide (r' = r ∧ k ≤ c')) as [[-> Hc]|Hn'].
      * assert (c' = k) as -> by lia.
        rewrite Z.sub_diag. simpl. by rewrite lookup_insert_eq.
      * rewrite lookup_insert_ne; [done|]. intros [=]. lia.
Qed.

Lemma fill_row_size (tds : list Re.Match) :
  ∀ (r k : Z) (grid : gmap (Z * Z) string),
    (∀ c, k ≤ c → grid !! (r, c) = None) →
    size (fill_row r k grid tds) = (size grid + length tds)%nat.
Proof.
  induction tds as [|x tds IH]; intros r k grid Hfresh.
  - unfold fill_row. simpl. lia.
  - unfold fill_row in *. simpl. rewrite IH.
    + rewrite map_size_insert_None by (apply Hfresh; lia). lia.
    + intros c Hc. rewrite lookup_insert_ne by (intros [=]; lia).
      apply Hfresh. lia.
Qed.

Lemma fill_rows_lookup (rows : list string) :
  ∀ (k : Z) (grid : gmap (Z * Z) string) (r' c' : Z),
    fill_rows k grid rows !! (r', c') =
      match td_at rows (r' - k) c' with
      | Some m => Some (td_value m)
      | None => grid !! (r', c')
      end.
Proof.
  induction rows as [|x rows IH]; intros k grid r' c'.
  - unfold td_at. simpl. by case_decide.
  - unfold fill_rows in *. simpl. rewrite IH, fill_row_lookup.
    unfold td_at.
    destruct (decide (0 ≤ r' - (k + 1) ∧ 0 ≤ c')) as [[Hr Hc]|Hn].
    + rewrite (decide_True (P := 0 ≤ r' - k ∧ 0 ≤ c')) by lia.
      replace (Z.to_nat (r' - k)) with (S (Z.to_nat (r' - (k + 1)))) by lia.
      simpl. destruct (rows !! Z.to_nat (r' - (k + 1)) ≫= _); [done|].
      by rewrite decide_False by lia.
    + destruct (decide (0 ≤ r' - k ∧ 0 ≤ c')) as [[Hr Hc]|Hn'].
      * assert (r' = k) as -> by lia.
        rewrite decide_True by lia.
        rewrite Z.sub_diag, Z.sub_0_r. done.
      * rewrite decide_False by lia. done.
Qed.

Lemma fill_rows_size (rows : list string) :
  ∀ (k : Z) (grid : gmap (Z * Z) string),
    (∀ r c, k ≤ r → grid !! (r, c) = None) →
    size (fill_rows k grid rows) =
      (size grid + sum_list (length ∘ Re.finditer td_re <$> rows))%nat.
Proof.
  induction rows as [|x rows IH]; intros k grid Hfresh.
  - unfold fill_rows. simpl. lia.
  - unfold fill_rows in *. simpl. rewrite IH.
    + rewrite fill_row_size by (intros; apply Hfresh; lia).
      by rewrite <- Nat.add_assoc.
    + intros r c Hr. rewrite fill_row_lookup.
      rewrite decide_False by lia. apply Hfresh. lia.
Qed.

Lemma parse_grid_lookup (markdown : string) (r c : Z) :
  parse_grid markdown !! (r, c) =
    td_value <$> td_at (Re.findall tr_re markdown) r c.
Proof.
  unfold parse_grid. rewrite fill_rows_lookup, Z.sub_0_r, lookup_empty.
  by destruct (td_at _ _ _).
Qed.

(** C10: the cell stored at [(r, c)] is the [c]-th [<td>] match of the
    [r]-th [<tr>] match, whatever its attributes; the columns of a row are
    [0 .. n-1] for its [n] matches, and each match takes one coordinate. *)
Theorem parse_grid_sequential_columns (markdown : string) :
  let rows := Re.findall tr_re markdown in
  let tds := Re.finditer td_re in
  (∀ (r c : Z) (v : string),
     parse_grid markdown !! (r, c) = Some v ↔
       ∃ row_html m, 0 ≤ r ∧ 0 ≤ c ∧
         rows !! Z.to_nat r = Some row_html ∧
         tds row_html !! Z.to_nat c = Some m ∧
         v = Py.strip (Re.sub tag_re "" (Re.group m 1))) ∧
  (∀ (r c : Z) (row_html : string),
     0 ≤ r → rows !! Z.to_nat r = Some row_html →
     (is_Some (parse_grid markdown !! (r, c)) ↔
        0 ≤ c < Z.of_nat (length (tds row_html)))) ∧
  size (parse_grid markdown) = sum_list (length ∘ tds <$> rows).
Proof.
  intros rows tds. split; [|split].
  - intros r c v. rewrite parse_grid_lookup. unfold td_at. split.
    + case_decide as Hrc; [|done]. destruct Hrc as [Hr Hc].
      fold rows. destruct (rows !! Z.to_nat r) as [row_html|] eqn:Er; [|done].
      simpl. fold tds.
      destruct (tds row_html !! Z.to_nat c) as [m|] eqn:Ec; [|done].
      intros [= <-]. by exists row_html, m.
    + intros (row_html & m & Hr & Hc & Er & Ec & ->).
      rewrite decide_True by done. fold rows. rewrite Er. simpl.
      fold tds. by rewrite Ec.
  - intros r c row_html Hr Er. rewrite parse_grid_lookup. unfold td_at.
    rewrite fmap_is_Some. fold rows. split.
    + case_decide as Hrc; [|by intros [? [=]]].
      rewrite Er. simpl. intros Hs. apply lookup_lt_is_Some in Hs.
      fold tds in Hs. lia.
    + intros Hc. rewrite decide_True by lia. rewrite Er. simpl.
      apply lookup_lt_is_Some. fold tds. lia.
  - unfold parse_grid. rewrite fill_rows_size; [|done].
    by rewrite map_size_empty.
Qed.

(** On the scenario table the cell that spans two columns is the single
    entry of row 2. *)
Example parse_grid_totals :
  (λ k, parse_grid Samples.totals_html !! k) <$> [(0, 1); (2, 0); (2, 1)] =
    [Some "Amount"; Some "Total"; None] ∧
  size (parse_grid Samples.totals_html) = 5%nat.
Proof. split; vm_compute; reflexivity. Qed.

(** ** The DataFrame grid *)

Lemma foldl_invariant {S X : Type} (P : S → Prop) (f : S → X → S)
    (l : list X) :
  (∀ s x, P s → P (f s x)) → ∀ s, P s → P (foldl f s l).
Proof. intros Hf. induction l as [|x l IH]; simpl; auto. Qed.

Lemma elem_of_add_label (labels : list Z) (x y : Z) :
  y ∈ add_label labels x ↔ y ∈ labels ∨ y = x.
Proof.
  unfold add_label. case_decide as Hx.
  - split; [auto|]. intros [?| ->]; done.
  - rewrite elem_of_app, list_elem_of_singleton. tauto.
Qed.

Lemma loc_set_labelled (df : DataFrame) (r c : Z) (v : string) :
  labelled df → labelled (loc_set df r c v).
Proof.
  intros Hdf r' c' Hs. simpl in *. rewrite !elem_of_add_label.
  destruct (decide ((r, c) = (r', c'))) as [[= -> ->]|Hne]; [by auto|].
  rewrite lookup_insert_ne in Hs by done.
  destruct (Hdf r' c' Hs). auto.
Qed.

Lemma write_entry_labelled mr mc content r (df : DataFrame) (c : Z) :
  labelled df → labelled (write_entry mr mc content r df c).
Proof.
  unfold write_entry. destruct (_ && _); auto using loc_set_labelled.
Qed.

Lemma write_cell_labelled mr mc (df : DataFrame) (pos : Position.t) :
  labelled df → labelled (write_cell mr mc df pos).
Proof.
  unfold write_cell. apply foldl_invariant. intros s r.
  apply foldl_invariant. intros s' c. apply write_entry_labelled.
Qed.

Lemma loc_labelled (df : DataFrame) (r c : Z) (v : string) :
  labelled df → entries df !! (r, c) = Some v → loc df r c = Some (Some v).
Proof.
  intros Hdf Hv. unfold loc.
  rewrite decide_True by (apply Hdf; by rewrite Hv). by rewrite Hv.
Qed.

Lemma write_entry_entries mr mc content r (df : DataFrame) (c r' c' : Z) :
  entries (write_entry mr mc content r df c) !! (r', c') =
    if decide (r' = r ∧ c' = c ∧ r ≤ mr ∧ c ≤ mc) then Some content
    else entries df !! (r', c').
Proof.
  unfold write_entry.
  destruct (r <=? mr) eqn:Er; destruct (c <=? mc) eqn:Ec; simpl;
    try (rewrite decide_False by lia; done).
  destruct (decide (r' = r ∧ c' = c ∧ r ≤ mr ∧ c ≤ mc)) as [(-> & -> & _)|Hn].
  - by rewrite lookup_insert_eq.
  - rewrite lookup_insert_ne; [done|]. intros [= -> ->]. lia.
Qed.

Ltac split_decides :=
  repeat case_decide; try done; exfalso;
  rewrite ?elem_of_cons in *; intuition (subst; eauto; lia).

Lemma write_columns_entries mr mc content r (cols : list Z) :
  ∀ (df : DataFrame) (r' c' : Z),
    entries (foldl (write_entry mr mc content r) df cols) !! (r', c') =
      if decide (r' = r ∧ c' ∈ cols ∧ r ≤ mr ∧ c' ≤ mc) then Some content
      else entries df !! (r', c').
Proof.
  induction cols as [|a cols IH]; intros df r' c'; cbn [foldl].
  - case_decide as H; [|done]. destruct H as (_ & H & _).
    by apply elem_of_nil in H.
  - rewrite IH, write_entry_entries. split_decides.
Qed.

Lemma write_rows_entries mr mc content (cols rows : list Z) :
  ∀ (df : DataFrame) (r' c' : Z),
    entries (foldl (λ df r, foldl (write_entry mr mc content r) df cols)
                   df rows) !! (r', c') =
      if decide (r' ∈ rows ∧ c' ∈ cols ∧ r' ≤ mr ∧ c' ≤ mc) then Some content
      else entries df !! (r', c').
Proof.
  induction rows as [|a rows IH]; intros df r' c'; cbn [foldl].
  - case_decide as H; [|done]. destruct H as (H & _).
    by apply elem_of_nil in H.
  - rewrite IH, write_columns_entries. split_decides.
Qed.

(** What one cell writes: its content on the coordinates it occupies, as
    far as they are within the bounds. *)
Lemma write_cell_entries mr mc (df : DataFrame) (pos : Position.t) (r c : Z) :
  entries (write_cell mr mc df pos) !! (r, c) =
    if decide (occupies pos r c ∧ r ≤ mr ∧ c ≤ mc) then Some (cell_content pos)
    else entries df !! (r, c).
Proof.
  unfold write_cell. rewrite write_rows_entries. unfold Py.range, occupies.
  repeat case_decide; try done; exfalso; rewrite !elem_of_seqZ in *; lia.
Qed.

Lemma write_cells_labelled mr mc (cells : list (string * Position.t)) :
  ∀ df, labelled df → labelled (write_cells mr mc df cells).
Proof.
  unfold write_cells. apply foldl_invariant.
  intros s x. apply write_cell_labelled.
Qed.

Lemma write_cells_app mr mc (df : DataFrame)
    (l1 l2 : list (string * Position.t)) :
  write_cells mr mc df (l1 ++ l2) = write_cells mr mc (write_cells mr mc df l1) l2.
Proof. unfold write_cells. apply foldl_app. Qed.

(** Cells that do not occupy a coordinate leave it as it is. *)
Lemma write_cells_elsewhere mr mc (cells : list (string * Position.t)) (r c : Z) :
  Forall (λ y, ¬ occupies y.2 r c) cells →
  ∀ df, entries (write_cells mr mc df cells) !! (r, c) = entries df !! (r, c).
Proof.
  induction 1 as [|y cells Hy _ IH]; intros df; [done|].
  change (write_cells mr mc df (y :: cells))
    with (write_cells mr mc (write_cell mr mc df y.2) cells).
  rewrite IH, write_cell_entries. rewrite decide_False; [done|]. tauto.
Qed.

(** The last cell in input order that occupies a coordinate within the
    bounds decides the entry there. *)
Lemma write_cells_last_writer mr mc (df : DataFrame)
    (before after : list (string * Position.t)) (x : string * Position.t)
    (r c : Z) :
  occupies x.2 r c → r ≤ mr → c ≤ mc →
  Forall (λ y, ¬ occupies y.2 r c) after →
  entries (write_cells mr mc df (before ++ x :: after)) !! (r, c) =
    Some (cell_content x.2).
Proof.
  intros Hocc Hr Hc Hafter.
  rewrite write_cells_app.
  change (write_cells mr mc ?d (x :: after))
    with (write_cells mr mc (write_cell mr mc d x.2) after).
  rewrite write_cells_elsewhere by done.
  rewrite write_cell_entries. by rewrite decide_True.
Qed.

Lemma empty_frame_labelled (index columns : list Z) :
  labelled (MkDataFrame index columns ∅).
Proof. intros r c [v Hv]. simpl in Hv. by rewrite lookup_empty in Hv. Qed.

Lemma fill_dataframe_returns (table_cells : list (string * Position.t))
    (max_row max_col : Z) :
  Py.max ((λ c, Position.row c.2) <$> table_cells) = Some max_row →
  Py.max ((λ c, Position.col c.2) <$> table_cells) = Some max_col →
  fill_dataframe table_cells =
    Some (write_cells max_row max_col
            (MkDataFrame (Py.range 0 (max_row + 1)) (Py.range 0 (max_col + 1)) ∅)
            table_cells).
Proof. unfold fill_dataframe. by intros -> ->. Qed.

Lemma fill_dataframe_last_writer (table_cells : list (string * Position.t))
    (max_row max_col : Z)
    (before after : list (string * Position.t)) (x : string * Position.t)
    (r c : Z) :
  Py.max ((λ c, Position.row c.2) <$> table_cells) = Some max_row →
  Py.max ((λ c, Position.col c.2) <$> table_cells) = Some max_col →
  table_cells = (before ++ x :: after)%list →
  occupies x.2 r c → r ≤ max_row → c ≤ max_col →
  Forall (λ y, ¬ occupies y.2 r c) after →
  ∃ df, fill_dataframe table_cells = Some df ∧
        loc df r c = Some (Some (cell_content x.2)).
Proof.
  intros Hmr Hmc Hsplit Hocc Hr Hc Hafter.
  eexists. split; [by apply fill_dataframe_returns|].
  apply loc_labelled.
  - apply write_cells_labelled, empty_frame_labelled.
  - rewrite Hsplit. by apply write_cells_last_writer.
Qed.

Lemma Py_max_ge (l : list Z) (m : Z) :
  Py.max l = Some m → ∀ x, x ∈ l → x ≤ m.
Proof.
  destruct l as [|x0 l]; [done|]. simpl. intros [= <-].
  assert (Hfold : ∀ l a, a ≤ foldl Z.max a l ∧ ∀ x, x ∈ l → x ≤ foldl Z.max a l).
  { clear. induction l as [|y l IH]; intros a; simpl.
    - split; [lia|]. intros x Hx. by apply elem_of_nil in Hx.
    - destruct (IH (Z.max a y)) as [H1 H2]. split; [lia|].
      intros x Hx. apply elem_of_cons in Hx as [->|Hx]; [lia|auto]. }
  intros x Hx. destruct (Hfold l x0) as [H1 H2].
  apply elem_of_cons in Hx as [->|Hx]; auto.
Qed.

Lemma Py_max_elem (l : list Z) (m : Z) : Py.max l = Some m → m ∈ l.
Proof.
  destruct l as [|x0 l]; [done|]. simpl. intros [= <-].
  assert (Hfold : ∀ l a, foldl Z.max a l = a ∨ foldl Z.max a l ∈ l).
  { clear. induction l as [|y l IH]; intros a; simpl; [by left|].
    destruct (IH (Z.max a y)) as [H|H].
    - rewrite H. destruct (Z.max_spec a y) as [[_ ->]|[_ ->]].
      + right. left.
      + by left.
    - right. by right. }
  destruct (Hfold l x0) as [-> | H]; [left | by right].
Qed.

(** C1, as the code has it: when two cells claim a coordinate within the
    bounds of the frame, a frame is returned in which the later one in
    input order that claims the coordinate has left its content there. *)
Theorem overlap_last_writer_wins (response : Response.t)
    (table_chunk : Chunk.t) (others : list Chunk.t) (max_row max_col : Z)
    (l1 l2 l3 : list (string * Position.t)) (first second : string * Position.t)
    (r c : Z) :
  table_chunks response = table_chunk :: others →
  let table_cells := cells_of_chunk table_chunk (Response.grounding response) in
  Py.max ((λ c, Position.row c.2) <$> table_cells) = Some max_row →
  Py.max ((λ c, Position.col c.2) <$> table_cells) = Some max_col →
  table_cells = (l1 ++ first :: l2 ++ second :: l3)%list →
  occupies first.2 r c → occupies second.2 r c →
  Forall (λ y, ¬ occupies y.2 r c) l3 →
  r ≤ max_row → c ≤ max_col →
  ∃ df, extract_table_to_dataframe response = Some df ∧
        loc df r c = Some (Some (cell_content second.2)).
Proof.
  intros Htc table_cells Hmr Hmc Hsplit _ Hsecond Hl3 Hr Hc.
  unfold extract_table_to_dataframe. rewrite Htc.
  apply (fill_dataframe_last_writer table_cells max_row max_col
           (l1 ++ first :: l2) l3 second r c); try done.
  by rewrite Hsplit, <- app_assoc.
Qed.

Lemma overlap_last_writer_wins_witness :
  ∃ df, extract_table_to_dataframe Samples.overlapping_cells = Some df ∧
        loc df 2 2 = Some (Some "Cell R2C2").
Proof.
  apply (overlap_last_writer_wins Samples.overlapping_cells
           (Samples.table_chunk "t" "") [] 2 2
           [] [] [] ("g1", Samples.overlap_first) ("g2", Samples.overlap_second)
           2 2); try done; vm_compute; reflexivity.
Defined.

(** C1 fails as stated: of the two cells that claim (2,2), the frame keeps
    the content of the second, and returns nothing besides the frame. *)
Lemma overlap_keeps_second_writer :
  occupies Samples.overlap_first 2 2 ∧ occupies Samples.overlap_second 2 2 ∧
  cells_of_chunk (Samples.table_chunk "t" "")
    (Response.grounding Samples.overlapping_cells) =
    [("g1", Samples.overlap_first); ("g2", Samples.overlap_second)] ∧
  cell_content Samples.overlap_first = "Cell R1C1" ∧
  (extract_table_to_dataframe Samples.overlapping_cells ≫= λ df, loc df 2 2) =
    Some (Some "Cell R2C2") ∧
  cell_content Samples.overlap_second = "Cell R2C2".
Proof.
  split; [|split]; [unfold occupies; simpl; lia..|].
  repeat split; vm_compute; reflexivity.
Qed.

(** C2 at a cell with row 5 and rowspan 3: the analysis reports 8 rows,
    the frame has the row labels 0..5 only, so that rows 6 and 7 of the
    cell are missing, and the markdown has six table rows. *)
Theorem tall_cell_dimensions :
  analyze_table_structure Samples.tall_cell =
    [MkReport "tg" 0 1 (Some (8, 1))] ∧
  index <$> extract_table_to_dataframe Samples.tall_cell =
    Some [0; 1; 2; 3; 4; 5] ∧
  (extract_table_to_dataframe Samples.tall_cell ≫= λ df, loc df 5 0) =
    Some (Some "Cell R5C0") ∧
  (λ df, (loc df 6 0, loc df 7 0)) <$>
    extract_table_to_dataframe Samples.tall_cell = Some (None, None) ∧
  reconstruct_table_markdown Samples.tall_cell =
    Some (Py.join newline
            ["|  |"; "| --- |"; "|  |"; "|  |"; "|  |"; "|  |";
             "| Cell50 (spans 3 rows) |"]).
Proof. repeat split; vm_compute; reflexivity. Qed.

Lemma non_overlapping_later (before after : list (string * Position.t))
    (x : string * Position.t) (r c : Z) :
  non_overlapping (before ++ x :: after) → occupies x.2 r c →
  Forall (λ y, ¬ occupies y.2 r c) after.
Proof.
  intros Hno Hx. apply Forall_lookup. intros k y Hy.
  apply (Hno (length before) (length before + S k)%nat x y r c); [| |lia|done].
  - by rewrite list_lookup_middle.
  - rewrite lookup_app_r by lia.
    replace (length before + S k - length before)%nat with (S k) by lia.
    done.
Qed.

(** C3, as the code has it, for the frame of [extract_table_to_dataframe]:
    with non-overlapping cells a frame is returned in which every
    coordinate a cell occupies within the bounds holds that cell's content,
    and so does the anchor of every cell with spans of at least one. *)
Theorem occupied_coordinate_resolves (response : Response.t)
    (table_chunk : Chunk.t) (others : list Chunk.t)
    (max_row max_col : Z) :
  table_chunks response = table_chunk :: others →
  let table_cells := cells_of_chunk table_chunk (Response.grounding response) in
  non_overlapping table_cells →
  Py.max ((λ c, Position.row c.2) <$> table_cells) = Some max_row →
  Py.max ((λ c, Position.col c.2) <$> table_cells) = Some max_col →
  ∃ df, extract_table_to_dataframe response = Some df ∧
    ∀ cell : string * Position.t, cell ∈ table_cells →
      (∀ i j : Z,
         0 ≤ i < Position.rowspan cell.2 → 0 ≤ j < Position.colspan cell.2 →
         Position.row cell.2 + i ≤ max_row → Position.col cell.2 + j ≤ max_col →
         loc df (Position.row cell.2 + i) (Position.col cell.2 + j) =
           Some (Some (cell_content cell.2))) ∧
      (1 ≤ Position.rowspan cell.2 → 1 ≤ Position.colspan cell.2 →
       loc df (Position.row cell.2) (Position.col cell.2) =
         Some (Some (cell_content cell.2))).
Proof.
  intros Htc table_cells Hno Hmr Hmc.
  unfold extract_table_to_dataframe. rewrite Htc. fold table_cells.
  eexists. split; [by apply fill_dataframe_returns|].
  intros cell Hcell.
  destruct (list_elem_of_split _ _ Hcell) as (before & after & Hsplit).
  assert (Hocc : ∀ r c, occupies cell.2 r c → r ≤ max_row → c ≤ max_col →
            loc (write_cells max_row max_col
                   (MkDataFrame (Py.range 0 (max_row + 1))
                                (Py.range 0 (max_col + 1)) ∅) table_cells) r c =
              Some (Some (cell_content cell.2))).
  { intros r c Hocc Hr Hc.
    destruct (fill_dataframe_last_writer table_cells max_row max_col
                before after cell r c) as (df & Hdf & Hloc); try done.
    - apply (non_overlapping_later before after cell r c); [|done].
      by rewrite <- Hsplit.
    - rewrite (fill_dataframe_returns _ _ _ Hmr Hmc) in Hdf.
      by injection Hdf as <-. }
  split.
  - intros i j Hi Hj Hr Hc. apply Hocc; [|done..]. unfold occupies. lia.
  - intros Hrs Hcs. apply Hocc.
    + unfold occupies. lia.
    + apply (Py_max_ge _ _ Hmr).
      apply list_elem_of_fmap. by exists cell.
    + apply (Py_max_ge _ _ Hmc).
      apply list_elem_of_fmap. by exists cell.
Qed.

Lemma totals_cells_non_overlapping :
  non_overlapping
    (cells_of_chunk (Samples.table_chunk "t" Samples.totals_html)
       (Response.grounding Samples.totals_cells)).
Proof.
  intros i j x y r c Hx Hy Hne Hox Hoy.
  vm_compute in Hx, Hy.
  destruct i as [|[|[|[|[|i]]]]]; try discriminate;
    destruct j as [|[|[|[|[|j]]]]]; try discriminate; try done;
    injection Hx as <-; injection Hy as <-;
    unfold occupies in Hox, Hoy; simpl in Hox, Hoy; lia.
Qed.

Lemma occupied_coordinate_resolves_witness :
  ∃ df, extract_table_to_dataframe Samples.totals_cells = Some df ∧
        loc df 2 1 = Some (Some "Cell R2C0").
Proof.
  destruct (occupied_coordinate_resolves Samples.totals_cells
              (Samples.table_chunk "t" Samples.totals_html) [] 2 1)
    as (df & Hdf & Hcells).
  - vm_compute. reflexivity.
  - apply totals_cells_non_overlapping.
  - vm_compute. reflexivity.
  - vm_compute. reflexivity.
  - exists df. split; [done|].
    refine (proj1 (Hcells ("tot", Position.mk 2 0 1 2 "t") _) 0 1 _ _ _ _).
    + vm_compute. do 4 right. left.
    + simpl. lia.
    + simpl. lia.
    + simpl. lia.
    + simpl. lia.
Defined.

(** C3 fails as stated on the grid of [get_pdf_cell]: the cell that spans
    both columns of row 2 is found at (2,0), and (2,1), which it covers,
    has no entry. *)
Lemma covered_coordinate_not_in_html_grid :
  GetPdfTableCell.get_pdf_cell Samples.totals_pdf 2 0 0 = Py.Return "Total" ∧
  GetPdfTableCell.get_pdf_cell Samples.totals_pdf 2 1 0 =
    Py.Raise (Py.KeyError
      "No cell at (2, 1). Available: [(0, 0), (0, 1), (1, 0), (1, 1), (2, 0)]").
Proof. split; vm_compute; reflexivity. Qed.

(** ** The markdown rendering *)

Lemma collect_cells_data_content (table_chunk : Chunk.t)
    (items : list (string * Grounding.t)) (key : Z * Z) (cell : CellData) :
  collect_cells_data table_chunk items !! key = Some cell →
  content cell = "Cell" +:+ Py.str key.1 +:+ Py.str key.2.
Proof.
  unfold collect_cells_data. revert key cell.
  apply (foldl_invariant
    (λ m : gmap (Z * Z) CellData, ∀ key cell, m !! key = Some cell →
       content cell = "Cell" +:+ Py.str key.1 +:+ Py.str key.2)).
  - intros m it Hm key cell.
    case_decide; [|by apply Hm].
    destruct (Grounding.position it.2) as [pos|]; [|by apply Hm].
    case_decide; [|by apply Hm].
    destruct (decide ((Position.row pos, Position.col pos) = key)) as [<-|Hne].
    + rewrite lookup_insert_eq. by intros [= <-].
    + rewrite lookup_insert_ne by done. apply Hm.
  - intros key cell Hk. by rewrite lookup_empty in Hk.
Qed.






Lemma lines_after_header (cells_data : gmap (Z * Z) CellData) (max_col : Z)
    (rows : list Z) :
  Forall (λ row, row ≠ 0) rows →
  (rows ≫= λ row, row_line cells_data max_col row ::
                   (if row =? 0 then [separator max_col] else [])) =
    row_line cells_data max_col <$> rows.
Proof.
  induction 1 as [|row rows Hrow _ IH]; [done|].
  rewrite fmap_cons. cbn [mbind list_bind]. fold (@mbind list _).
  apply Z.eqb_neq in Hrow. rewrite Hrow. simpl. f_equal. apply IH.
Qed.

Lemma markdown_lines_header (cells_data : gmap (Z * Z) CellData)
    (max_row max_col : Z) :
  0 ≤ max_row →
  markdown_lines cells_data max_row max_col =
    row_line cells_data max_col 0 :: separator max_col ::
      (row_line cells_data max_col <$> Py.range 1 (max_row + 1)).
Proof.
  intros Hmr. unfold markdown_lines, Py.range.
  rewrite seqZ_cons by lia.
  replace (Z.pred (max_row + 1 - 0)) with (max_row + 1 - 1) by lia.
  change (Z.succ 0) with 1.
  cbn [mbind list_bind]. simpl. do 2 f_equal.
  apply lines_after_header. apply Forall_seqZ. lia.
Qed.



(** * Further properties of the scripts *)

(** ** analyze_table_structure *)

Lemma table_cells_within_position (table : Grounding.t)
    (cells : list (string * Grounding.t)) (it : string * Grounding.t) :
  it ∈ table_cells_within table cells → is_Some (Grounding.position it.2).
Proof.
  unfold table_cells_within. rewrite list_elem_of_filter. intros [Hin _].
  unfold cell_in_table in Hin. by destruct (Grounding.position it.2).
Qed.

Lemma Py_max_None (l : list Z) : Py.max l = None ↔ l = [].
Proof. by destruct l. Qed.

(** X1: for every table grounding the analysis has a report with the
    number of its cells; dimensions are reported exactly when there is a
    cell, every cell's span ends within them, and some cell reaches the
    last row and some cell the last column. *)
Theorem analyze_dimensions_cover (response : Response.t) (tid : string)
    (table : Grounding.t) :
  (tid, table) ∈ of_type "table" (Response.grounding response) →
  let table_cells :=
    table_cells_within table (of_type "tableCell" (Response.grounding response)) in
  MkReport tid (Grounding.page table) (length table_cells)
           (span_dimensions table_cells) ∈ analyze_table_structure response ∧
  (span_dimensions table_cells = None ↔ table_cells = []) ∧
  ∀ rows cols : Z, span_dimensions table_cells = Some (rows, cols) →
    (∀ cid cell pos, (cid, cell) ∈ table_cells →
       Grounding.position cell = Some pos →
       Position.row pos + Position.rowspan pos ≤ rows ∧
       Position.col pos + Position.colspan pos ≤ cols) ∧
    (∃ cid cell pos, (cid, cell) ∈ table_cells ∧
       Grounding.position cell = Some pos ∧
       Position.row pos + Position.rowspan pos = rows) ∧
    (∃ cid cell pos, (cid, cell) ∈ table_cells ∧
       Grounding.position cell = Some pos ∧
       Position.col pos + Position.colspan pos = cols).
Proof.
  intros Htable table_cells. split; [|split].
  - unfold analyze_table_structure. apply list_elem_of_fmap.
    by exists (tid, table).
  - unfold span_dimensions. split.
    + intros Hnone. destruct table_cells as [|it rest] eqn:E; [done|].
      exfalso.
      destruct (table_cells_within_position table
                  (of_type "tableCell" (Response.grounding response)) it)
        as [pos Hpos].
      { fold table_cells. rewrite E. left. }
      cbn [omap list_omap] in Hnone. rewrite Hpos in Hnone.
      simpl in Hnone. discriminate.
    + by intros ->.
  - intros rows cols Hdim. unfold span_dimensions in Hdim.
    set (positions := omap (λ it, Grounding.position it.2) table_cells) in Hdim.
    destruct (Py.max ((λ p, Position.row p + Position.rowspan p - 1) <$> positions))
      as [mr|] eqn:Hmr; [|done].
    destruct (Py.max ((λ p, Position.col p + Position.colspan p - 1) <$> positions))
      as [mc|] eqn:Hmc; [|done].
    simpl in Hdim. injection Hdim as <- <-.
    assert (Hpos : ∀ pos, pos ∈ positions ↔
              ∃ cid cell, (cid, cell) ∈ table_cells ∧
                          Grounding.position cell = Some pos).
    { intros pos. unfold positions. rewrite list_elem_of_omap. split.
      - intros ([cid cell] & Hin & Hp). by exists cid, cell.
      - intros (cid & cell & Hin & Hp). by exists (cid, cell). }
    split; [|split].
    + intros cid cell pos Hin Hp.
      assert (pos ∈ positions) as Hpp by (apply Hpos; eauto).
      pose proof (Py_max_ge _ _ Hmr
        (Position.row pos + Position.rowspan pos - 1)) as H1.
      pose proof (Py_max_ge _ _ Hmc
        (Position.col pos + Position.colspan pos - 1)) as H2.
      split.
      * cut (Position.row pos + Position.rowspan pos - 1 ≤ mr); [lia|].
        apply H1, list_elem_of_fmap. by exists pos.
      * cut (Position.col pos + Position.colspan pos - 1 ≤ mc); [lia|].
        apply H2, list_elem_of_fmap. by exists pos.
    + apply Py_max_elem, list_elem_of_fmap in Hmr as (pos & Hv & Hpp).
      apply Hpos in Hpp as (cid & cell & Hin & Hp).
      exists cid, cell, pos. repeat split; [done..|lia].
    + apply Py_max_elem, list_elem_of_fmap in Hmc as (pos & Hv & Hpp).
      apply Hpos in Hpp as (cid & cell & Hin & Hp).
      exists cid, cell, pos. repeat split; [done..|lia].
Qed.

Lemma analyze_dimensions_cover_witness :
  MkReport "tg" 0 1 (Some (8, 1)) ∈ analyze_table_structure Samples.tall_cell.
Proof.
  refine (proj1 (analyze_dimensions_cover Samples.tall_cell "tg"
                   (Samples.table_on 0 Samples.unit_box) _)).
  vm_compute. left.
Defined.





(** ** extract_table_to_dataframe *)

(** X3: a frame is returned exactly when the document has a table chunk
    and the first table chunk has a cell; cells of later table chunks make
    no difference. *)
Theorem dataframe_returned_iff (response : Response.t) :
  is_Some (extract_table_to_dataframe response) ↔
    ∃ table_chunk others,
      table_chunks response = table_chunk :: others ∧
      cells_of_chunk table_chunk (Response.grounding response) ≠ [].
Proof.
  unfold extract_table_to_dataframe.
  destruct (table_chunks response) as [|tc others].
  - split; [by intros [? ?]|]. by intros (? & ? & ? & ?).
  - unfold fill_dataframe.
    destruct (cells_of_chunk tc (Response.grounding response)) as [|c cs] eqn:E.
    + split; [by intros [? ?]|]. intros (? & ? & [= <- <-] & Hne).
      by rewrite E in Hne.
    + split; [|by simpl; eauto].
      intros _. exists tc, others. split; [done|]. by rewrite E.
Qed.

Lemma foldl_invariant_in {S X : Type} (P : S → Prop) (f : S → X → S)
    (l : list X) :
  (∀ s x, x ∈ l → P s → P (f s x)) → ∀ s, P s → P (foldl f s l).
Proof.
  induction l as [|x l IH]; simpl; intros Hf s Hs; [done|].
  apply IH.
  - intros s' x' Hx'. apply Hf. by right.
  - apply Hf; [left|done].
Qed.

Lemma add_label_present (labels : list Z) (x : Z) :
  x ∈ labels → add_label labels x = labels.
Proof. intros Hx. unfold add_label. by rewrite decide_True. Qed.

Lemma write_cell_shape mr mc (df : DataFrame) (pos : Position.t) :
  0 ≤ Position.row pos → 0 ≤ Position.col pos →
  index df = Py.range 0 (mr + 1) ∧ columns df = Py.range 0 (mc + 1) →
  index (write_cell mr mc df pos) = Py.range 0 (mr + 1) ∧
  columns (write_cell mr mc df pos) = Py.range 0 (mc + 1).
Proof.
  intros Hrow Hcol Hdf. unfold write_cell.
  set (P := λ d, index d = Py.range 0 (mr + 1) ∧ columns d = Py.range 0 (mc + 1)).
  apply (foldl_invariant_in P); [|exact Hdf]. intros s r Hr Hs.
  apply (foldl_invariant_in P); [|exact Hs]. intros s' c Hc [Hi Hcs].
  unfold Py.range in Hr, Hc. apply elem_of_seqZ in Hr, Hc.
  unfold write_entry.
  destruct (r <=? mr) eqn:Er; destruct (c <=? mc) eqn:Ec; cbn [andb];
    try done.
  apply Z.leb_le in Er, Ec. unfold P, loc_set. cbn [index columns].
  rewrite !add_label_present; [done|..].
  - rewrite Hcs. apply elem_of_seqZ. lia.
  - rewrite Hi. apply elem_of_seqZ. lia.
Qed.

Lemma write_cells_shape mr mc (cells : list (string * Position.t)) :
  Forall (λ cell, 0 ≤ Position.row cell.2 ∧ 0 ≤ Position.col cell.2) cells →
  ∀ df, index df = Py.range 0 (mr + 1) ∧ columns df = Py.range 0 (mc + 1) →
    index (write_cells mr mc df cells) = Py.range 0 (mr + 1) ∧
    columns (write_cells mr mc df cells) = Py.range 0 (mc + 1).
Proof.
  intros Hnn df Hdf. unfold write_cells.
  apply (foldl_invariant_in
    (λ d, index d = Py.range 0 (mr + 1) ∧ columns d = Py.range 0 (mc + 1)));
    [|exact Hdf].
  intros s cell Hcell. rewrite Forall_forall in Hnn.
  destruct (Hnn cell Hcell). by apply write_cell_shape.
Qed.

Lemma write_cells_blank mr mc (cells : list (string * Position.t)) (r c : Z) :
  ∀ df, entries (write_cells mr mc df cells) !! (r, c) = None ↔
    entries df !! (r, c) = None ∧
    Forall (λ cell, ¬ (occupies cell.2 r c ∧ r ≤ mr ∧ c ≤ mc)) cells.
Proof.
  induction cells as [|y cells IH]; intros df.
  - unfold write_cells. simpl. split; [by auto|by intros [? _]].
  - change (write_cells mr mc df (y :: cells))
      with (write_cells mr mc (write_cell mr mc df y.2) cells).
    rewrite IH, write_cell_entries, Forall_cons.
    case_decide; [|tauto]. split; [by intros [? _]|tauto].
Qed.

(** X4: when no anchor row or column is negative, the frame that is
    returned has the row labels 0..max_row and the column labels
    0..max_col; outside these labels [loc] has no entry, and inside them an
    entry is NaN exactly when no cell occupies the position. *)
Theorem dataframe_shape_and_blanks (response : Response.t)
    (table_chunk : Chunk.t) (others : list Chunk.t) (max_row max_col : Z) :
  table_chunks response = table_chunk :: others →
  let table_cells := cells_of_chunk table_chunk (Response.grounding response) in
  Py.max ((λ c, Position.row c.2) <$> table_cells) = Some max_row →
  Py.max ((λ c, Position.col c.2) <$> table_cells) = Some max_col →
  Forall (λ cell, 0 ≤ Position.row cell.2 ∧ 0 ≤ Position.col cell.2) table_cells →
  ∃ df, extract_table_to_dataframe response = Some df ∧
    index df = Py.range 0 (max_row + 1) ∧
    columns df = Py.range 0 (max_col + 1) ∧
    ∀ r c : Z,
      (¬ (0 ≤ r ≤ max_row ∧ 0 ≤ c ≤ max_col) → loc df r c = None) ∧
      (0 ≤ r ≤ max_row → 0 ≤ c ≤ max_col →
       (loc df r c = Some None ↔
          ∀ cell, cell ∈ table_cells → ¬ occupies cell.2 r c)).
Proof.
  intros Htc table_cells Hmr Hmc Hnn.
  unfold extract_table_to_dataframe. rewrite Htc. fold table_cells.
  eexists. split; [by apply fill_dataframe_returns|].
  set (df0 := MkDataFrame (Py.range 0 (max_row + 1)) (Py.range 0 (max_col + 1)) ∅).
  destruct (write_cells_shape max_row max_col table_cells Hnn df0) as [Hi Hc];
    [done|].
  split; [done|]. split; [done|].
  intros r c. unfold loc. rewrite Hi, Hc. split.
  - intros Hout. rewrite decide_False; [done|].
    unfold Py.range. rewrite !elem_of_seqZ. lia.
  - intros Hr Hcc.
    rewrite decide_True by (unfold Py.range; rewrite !elem_of_seqZ; lia).
    split.
    + intros [= Hnone]. apply write_cells_blank in Hnone as [_ Hall].
      rewrite Forall_forall in Hall. intros cell Hcell Hocc.
      apply (Hall cell Hcell). repeat split; [apply Hocc..|lia|lia].
    + intros Hfree. f_equal. apply write_cells_blank. split; [done|].
      apply Forall_forall. intros cell Hcell [Hocc _]. by apply (Hfree cell).
Qed.

Lemma dataframe_shape_and_blanks_witness :
  ∃ df, extract_table_to_dataframe MoreSamples.sparse_cells = Some df ∧
        index df = [0; 1; 2] ∧ columns df = [0; 1] ∧
        loc df 1 0 = Some None ∧ loc df 3 0 = None.
Proof.
  destruct (dataframe_shape_and_blanks MoreSamples.sparse_cells
              (Samples.table_chunk "t" "") [] 2 1)
    as (df & Hdf & Hi & Hc & Hloc).
  - reflexivity.
  - vm_compute. reflexivity.
  - vm_compute. reflexivity.
  - vm_compute. repeat constructor; discriminate.
  - exists df. repeat split; [done..| |].
    + apply (proj2 (Hloc 1 0)); [lia|lia|].
      intros cell Hcell. vm_compute in Hcell.
      apply elem_of_cons in Hcell as [->|Hcell];
        [|apply list_elem_of_singleton in Hcell as ->];
        unfold occupies; simpl; lia.
    + apply (proj1 (Hloc 3 0)). lia.
Defined.

(** ** reconstruct_table_markdown *)

Lemma append_cons (x : ascii) (a b : string) :
  String x a +:+ b = String x (a +:+ b).
Proof. reflexivity. Qed.

Lemma append_assoc (a b c : string) : (a +:+ b) +:+ c = a +:+ b +:+ c.
Proof.
  induction a as [|x a IH]; [done|]. rewrite !append_cons. by rewrite IH.
Qed.

Lemma covers_exists (cells_data : gmap (Z * Z) CellData) (row col : Z) :
  cells_data !! (row, col) = None →
  existsb (covers row col) (map_to_list cells_data) = true ↔
    ∃ r c cell, cells_data !! (r, c) = Some cell ∧
                r ≤ row < r + rowspan cell ∧ c ≤ col < c + colspan cell.
Proof.
  intros Hnone. rewrite existsb_exists. split.
  - intros ([[r c] cell] & Hin & Hcov).
    apply list_elem_of_In, elem_of_map_to_list in Hin.
    unfold covers in Hcov.
    rewrite !andb_true_iff, !bool_decide_eq_true in Hcov.
    exists r, c, cell. tauto.
  - intros (r & c & cell & Hcell & Hr & Hc). exists (r, c, cell). split.
    + apply list_elem_of_In. by apply elem_of_map_to_list.
    + unfold covers. rewrite !andb_true_iff, !bool_decide_eq_true.
      split; [done|].
      destruct (Z.eqb_spec r row) as [->|]; [|done].
      destruct (Z.eqb_spec c col) as [->|]; [|by rewrite orb_true_r].
      congruence.
Qed.

(** X5: what a position of the table is rendered as tells what it is: the
    placeholder exactly at the positions that are no anchor and lie in the
    span of a cell, the empty string exactly at the positions that are no
    anchor and lie in no span, and at an anchor a text that begins with the
    cell's content. *)
Theorem markdown_cell_kinds (table_chunk : Chunk.t)
    (items : list (string * Grounding.t)) (row col : Z) :
  let cells_data := collect_cells_data table_chunk items in
  let in_a_span :=
    ∃ r c cell, cells_data !! (r, c) = Some cell ∧
                r ≤ row < r + rowspan cell ∧ c ≤ col < c + colspan cell in
  (cell_text cells_data row col = "^^" ↔
     cells_data !! (row, col) = None ∧ in_a_span) ∧
  (cell_text cells_data row col = "" ↔
     cells_data !! (row, col) = None ∧ ¬ in_a_span) ∧
  (∀ cell, cells_data !! (row, col) = Some cell →
     ∃ notes, cell_text cells_data row col =
                "Cell" +:+ Py.str row +:+ Py.str col +:+ notes).
Proof.
  intros cells_data in_a_span. unfold cell_text.
  destruct (cells_data !! (row, col)) as [cell|] eqn:E.
  - pose proof (collect_cells_data_content _ _ _ _ E) as Hcontent.
    simpl in Hcontent. rewrite Hcontent.
    split; [|split].
    + split; [discriminate|by intros [? _]].
    + split; [discriminate|by intros [? _]].
    + intros ? [= <-]. eexists.
      rewrite !append_assoc. reflexivity.
  - pose proof (covers_exists cells_data row col E) as Hcov.
    fold in_a_span in Hcov.
    destruct (existsb (covers row col) (map_to_list cells_data)).
    + split; [|split]; [|split; [discriminate|]|done].
      * split; [|done]. intros _. split; [done|]. by apply Hcov.
      * intros [_ Hn]. destruct Hn. by apply Hcov.
    + assert (¬ in_a_span) as Hn by (intros H; by apply Hcov in H).
      split; [|split]; [split; [discriminate|tauto]| |done].
      split; [done|tauto].
Qed.

Lemma list_ascii_app (a b : string) :
  list_ascii_of_string (a +:+ b) =
    (list_ascii_of_string a ++ list_ascii_of_string b)%list.
Proof.
  induction a as [|x a IH]; [done|]. rewrite append_cons. simpl. by rewrite IH.
Qed.

Lemma made_of_app (alphabet a b : string) :
  Text.made_of alphabet a → Text.made_of alphabet b →
  Text.made_of alphabet (a +:+ b).
Proof.
  unfold Text.made_of. rewrite list_ascii_app. apply Forall_app_2.
Qed.

Lemma made_of_cons (alphabet : string) (x : ascii) (a : string) :
  x ∈ list_ascii_of_string alphabet → Text.made_of alphabet a →
  Text.made_of alphabet (String x a).
Proof. intros. by constructor. Qed.

Lemma count_char_app (c : ascii) (a b : string) :
  Text.count_char c (a +:+ b) = (Text.count_char c a + Text.count_char c b)%nat.
Proof.
  induction a as [|x a IH]; [done|]. rewrite append_cons. simpl.
  rewrite IH. lia.
Qed.

Lemma count_char_made_of (c : ascii) (alphabet s : string) :
  Text.count_char c alphabet = 0%nat → Text.made_of alphabet s →
  Text.count_char c s = 0%nat.
Proof.
  intros Hc. unfold Text.made_of.
  assert (Hne : ∀ x, x ∈ list_ascii_of_string alphabet → Ascii.eqb c x = false).
  { clear s. induction alphabet as [|y al IH]; intros x Hx.
    - by apply elem_of_nil in Hx.
    - simpl in Hc, Hx. destruct (Ascii.eqb c y) eqn:E; [done|].
      apply elem_of_cons in Hx as [->|Hx]; [done|]. by apply IH. }
  induction s as [|x s IH]; [done|]. simpl. intros Hs.
  apply Forall_cons in Hs as [Hx Hs]. rewrite (Hne x Hx). by apply IH.
Qed.

Lemma pretty_N_char_digit (n : N) :
  pretty_N_char n ∈ list_ascii_of_string "0123456789".
Proof.
  unfold pretty_N_char. repeat case_match; simpl;
    repeat (first [by left | right]).
Qed.

Lemma pretty_N_go_made_of (alphabet : string) (x : N) :
  (∀ n, pretty_N_char n ∈ list_ascii_of_string alphabet) →
  ∀ s, Text.made_of alphabet s → Text.made_of alphabet (pretty_N_go x s).
Proof.
  intros Hd. induction (N.lt_wf_0 x) as [x _ IH]. intros s Hs.
  destruct (decide (x = 0)%N) as [->|Hx]; [by rewrite pretty_N_go_0|].
  rewrite pretty_N_go_step by lia. apply IH.
  - apply N.div_lt; lia.
  - by apply made_of_cons.
Qed.

Lemma str_made_of (alphabet : string) (z : Z) :
  Text.made_of alphabet "0123456789-" → Text.made_of alphabet (Py.str z).
Proof.
  intros Hal. unfold Text.made_of in Hal. rewrite Forall_forall in Hal.
  assert (Hd : ∀ n, pretty_N_char n ∈ list_ascii_of_string alphabet).
  { intros n. apply Hal. pose proof (pretty_N_char_digit n) as Hn.
    simpl in *. rewrite !elem_of_cons in *. tauto. }
  assert (HN : ∀ n : N, Text.made_of alphabet (pretty n)).
  { intros n. unfold pretty, pretty_N. case_decide.
    - apply made_of_cons; [|constructor]. apply Hal. simpl. left.
    - apply pretty_N_go_made_of; [done|constructor]. }
  unfold Py.str, pretty, pretty_Z. destruct z as [|p|p].
  - apply made_of_cons; [|constructor]. apply Hal. simpl. left.
  - apply HN.
  - apply made_of_app; [|apply HN].
    apply made_of_cons; [|constructor]. apply Hal. simpl.
    do 10 right. left.
Qed.

Lemma cell_text_made_of (table_chunk : Chunk.t)
    (items : list (string * Grounding.t)) (row col : Z) :
  Text.made_of Text.cell_alphabet
    (cell_text (collect_cells_data table_chunk items) row col).
Proof.
  assert (Hlit : ∀ s, (∀ c, c ∈ list_ascii_of_string s →
                        c ∈ list_ascii_of_string Text.cell_alphabet) →
                  Text.made_of Text.cell_alphabet s).
  { intros s Hs. by apply Forall_forall. }
  assert (Hstr : ∀ z, Text.made_of Text.cell_alphabet (Py.str z)).
  { intros z. apply str_made_of. apply Hlit. intros c Hc. simpl in *.
    rewrite !elem_of_cons in *. tauto. }
  assert (Hnote : ∀ (b : bool) (z : Z) (unit : string),
            Text.made_of Text.cell_alphabet unit →
            Text.made_of Text.cell_alphabet
              (if b then " (spans " +:+ Py.str z +:+ unit else "")).
  { intros [] z unit Hu; [|constructor].
    repeat apply made_of_app; try done.
    apply Hlit. intros c Hc. simpl in *. rewrite !elem_of_cons in *. tauto. }
  unfold cell_text.
  destruct (collect_cells_data table_chunk items !! (row, col)) as [cell|] eqn:E.
  - rewrite (collect_cells_data_content _ _ _ _ E).
    repeat apply made_of_app; try apply Hstr; try apply Hnote;
      apply Hlit; intros c Hc; simpl in *; rewrite !elem_of_cons in *; tauto.
  - destruct (existsb _ _); [|constructor].
    apply Hlit. intros c Hc. simpl in *. rewrite !elem_of_cons in *. tauto.
Qed.

Lemma count_char_join (c : ascii) (sep : string) (parts : list string) :
  Forall (λ p, Text.count_char c p = 0%nat) parts →
  Text.count_char c (Py.join sep parts) =
    (Text.count_char c sep * (length parts - 1))%nat.
Proof.
  unfold Py.join. induction 1 as [|p parts Hp Hparts IH]; [simpl; lia|].
  destruct parts as [|q parts].
  - simpl. rewrite Hp. lia.
  - change (String.concat sep (p :: q :: parts))
      with (p +:+ sep +:+ String.concat sep (q :: parts)).
    rewrite !count_char_app, IH, Hp. simpl. lia.
Qed.

Lemma row_cells_length (cells_data : gmap (Z * Z) CellData) (max_col row : Z) :
  length (row_cells cells_data max_col row) = Z.to_nat (max_col + 1).
Proof.
  unfold row_cells, Py.range. rewrite length_fmap, length_seqZ. lia.
Qed.

Lemma row_line_counts (table_chunk : Chunk.t)
    (items : list (string * Grounding.t)) (max_col row : Z) (c : ascii) :
  Text.count_char c Text.cell_alphabet = 0%nat →
  Text.count_char c
    (row_line (collect_cells_data table_chunk items) max_col row) =
    (Text.count_char c "| " +
     Text.count_char c " | " * (Z.to_nat (max_col + 1) - 1) +
     Text.count_char c " |")%nat.
Proof.
  intros Hc. unfold row_line. rewrite !count_char_app, count_char_join.
  - rewrite row_cells_length. lia.
  - unfold row_cells. apply Forall_fmap, Forall_forall. intros col _. simpl.
    eapply count_char_made_of; [exact Hc|]. apply cell_text_made_of.
Qed.

Lemma separator_counts (max_col : Z) (c : ascii) :
  Text.count_char c " --- " = 0%nat →
  Text.count_char c (separator max_col) =
    (Text.count_char c "|" +
     Text.count_char c "|" * (Z.to_nat (max_col + 1) - 1) +
     Text.count_char c "|")%nat.
Proof.
  intros Hc. unfold separator. rewrite !count_char_app, count_char_join.
  - unfold Py.range. rewrite length_fmap, length_seqZ. lia.
  - apply Forall_fmap, Forall_forall. by intros col _.
Qed.

(** X6: for a table with an anchor at a row and at a column of at least 0,
    the text returned has max_row + 2 lines (the rows and the separator),
    that is max_row + 1 newline characters, and every line has the same
    number of bars, max_col + 2. *)
Theorem markdown_table_is_rectangular (response : Response.t)
    (table_chunk : Chunk.t) (others : list Chunk.t) (max_row max_col : Z) :
  table_chunks response = table_chunk :: others →
  let cells_data :=
    collect_cells_data table_chunk (Response.grounding response) in
  let keys := (map_to_list cells_data).*1 in
  Py.max (fst <$> keys) = Some max_row →
  Py.max (snd <$> keys) = Some max_col →
  0 ≤ max_row → 0 ≤ max_col →
  ∃ lines text,
    reconstruct_table_markdown response = Some text ∧
    text = Py.join newline lines ∧
    length lines = Z.to_nat (max_row + 2) ∧
    Forall (λ line, Text.count_char "|" line = Z.to_nat (max_col + 2) ∧
                    Text.count_char (ascii_of_nat 10) line = 0%nat) lines ∧
    Text.count_char (ascii_of_nat 10) text = Z.to_nat (max_row + 1).
Proof.
  intros Htc cells_data keys Hmr Hmc Hr0 Hc0.
  exists (markdown_lines cells_data max_row max_col), 
         (Py.join newline (markdown_lines cells_data max_row max_col)).
  assert (Hlines : Forall (λ line,
            Text.count_char "|" line = Z.to_nat (max_col + 2) ∧
            Text.count_char (ascii_of_nat 10) line = 0%nat)
            (markdown_lines cells_data max_row max_col)).
  { rewrite markdown_lines_header by done.
    assert (Hrow : ∀ row,
      Text.count_char "|" (row_line cells_data max_col row) = Z.to_nat (max_col + 2) ∧
      Text.count_char (ascii_of_nat 10) (row_line cells_data max_col row) = 0%nat).
    { intros row. unfold cells_data. rewrite !row_line_counts by done.
      change (Text.count_char "|" "| ") with 1%nat.
      change (Text.count_char "|" " | ") with 1%nat.
      change (Text.count_char "|" " |") with 1%nat.
      change (Text.count_char (ascii_of_nat 10) "| ") with 0%nat.
      change (Text.count_char (ascii_of_nat 10) " | ") with 0%nat.
      change (Text.count_char (ascii_of_nat 10) " |") with 0%nat.
      lia. }
    repeat apply Forall_cons_2.
    - apply Hrow.
    - rewrite !separator_counts by done.
      change (Text.count_char "|" "|") with 1%nat.
      change (Text.count_char (ascii_of_nat 10) "|") with 0%nat.
      lia.
    - apply Forall_fmap, Forall_forall. intros row _. apply Hrow. }
  assert (Hlen : length (markdown_lines cells_data max_row max_col) =
                 Z.to_nat (max_row + 2)).
  { rewrite markdown_lines_header by done. simpl.
    unfold Py.range. rewrite length_fmap, length_seqZ. lia. }
  split; [|split; [done|split; [done|split; [done|]]]].
  - unfold reconstruct_table_markdown, render_markdown. rewrite Htc.
    fold cells_data. fold keys. by rewrite Hmr, Hmc.
  - rewrite count_char_join.
    + rewrite Hlen. change (Text.count_char (ascii_of_nat 10) newline) with 1%nat.
      lia.
    + eapply Forall_impl; [exact Hlines|]. by intros line [_ ?].
Qed.

Lemma markdown_table_is_rectangular_witness :
  ∃ lines text,
    reconstruct_table_markdown Samples.totals_cells = Some text ∧
    text = Py.join newline lines ∧
    length lines = 4%nat ∧
    Forall (λ line, Text.count_char "|" line = 3%nat ∧
                    Text.count_char (ascii_of_nat 10) line = 0%nat) lines ∧
    Text.count_char (ascii_of_nat 10) text = 3%nat.
Proof.
  apply (markdown_table_is_rectangular Samples.totals_cells
           (Samples.table_chunk "t" Samples.totals_html) [] 2 1
           eq_refl eq_refl eq_refl); lia.
Defined.

(** ** extract_nested_tables *)

Lemma nested_pair_elem (a b : string * Grounding.t) (outer inner : string) :
  (outer, inner) ∈ nested_pair a b ↔
    ((outer, inner) = (a.1, b.1) ∧
       inside (Grounding.box b.2) (Grounding.box a.2) = true) ∨
    ((outer, inner) = (b.1, a.1) ∧
       inside (Grounding.box b.2) (Grounding.box a.2) = false ∧
       inside (Grounding.box a.2) (Grounding.box b.2) = true).
Proof.
  unfold nested_pair, nested.
  destruct (inside (Grounding.box b.2) (Grounding.box a.2));
    [|destruct (inside (Grounding.box a.2) (Grounding.box b.2))];
    rewrite ?list_elem_of_singleton, ?elem_of_nil; split;
    intros H; try tauto; destruct H as [[? ?]|(? & ? & ?)]; done.
Qed.

Lemma nested_pair_length (a b : string * Grounding.t) :
  (length (nested_pair a b) ≤ 1)%nat.
Proof. unfold nested_pair. destruct (nested a.2 b.2); simpl; lia. Qed.

Lemma nested_pairs_elem (tables : list (string * Grounding.t))
    (p : string * string) :
  p ∈ nested_pairs tables ↔
    ∃ (i j : nat) a b, tables !! i = Some a ∧ tables !! j = Some b ∧
                       (i < j)%nat ∧ p ∈ nested_pair a b.
Proof.
  induction tables as [|t1 later IH]; simpl.
  - rewrite elem_of_nil. split; [done|]. by intros (i & j & a & b & H & _).
  - rewrite elem_of_app, list_elem_of_bind, IH. split.
    + intros [(b & Hp & Hb)|(i & j & a & b & Ha & Hb & Hij & Hp)].
      * apply list_elem_of_lookup in Hb as [k Hk].
        exists 0%nat, (S k), t1, b. simpl.
        split; [done|]. split; [done|]. split; [lia|done].
      * exists (S i), (S j), a, b. simpl.
        split; [done|]. split; [done|]. split; [lia|done].
    + intros (i & j & a & b & Ha & Hb & Hij & Hp).
      destruct j as [|j]; [lia|]. destruct i as [|i]; simpl in *.
      * injection Ha as <-. left. exists b. split; [done|].
        by eapply list_elem_of_lookup_2.
      * right. exists i, j, a, b.
        split; [done|]. split; [done|]. split; [lia|done].
Qed.

Lemma nested_pairs_length (tables : list (string * Grounding.t)) :
  (2 * length (nested_pairs tables) ≤ length tables * (length tables - 1))%nat.
Proof.
  induction tables as [|t1 later IH]; [simpl; lia|].
  cbn [nested_pairs]. rewrite length_app.
  assert (length (later ≫= λ t2, nested_pair t1 t2) ≤ length later)%nat as Hrow.
  { clear IH. induction later as [|t2 later IH]; [simpl; lia|].
    rewrite bind_cons, length_app. pose proof (nested_pair_length t1 t2).
    cbn [length]. lia. }
  cbn [length]. rewrite Nat.sub_succ, Nat.sub_0_r.
  set (n := length later) in *. clearbody n.
  destruct n as [|n]; [lia|].
  rewrite Nat.sub_succ, Nat.sub_0_r in IH. nia.
Qed.

(** X7: the pairs reported are exactly those of two table groundings, the
    first before the second in the grounding, where the second lies inside
    the first (reported as first, second) or else the first inside the
    second (reported as second, first); among n tables at most n(n-1)/2
    pairs are reported. *)
Theorem nested_pairs_characterised (response : Response.t) :
  let tables := of_type "table" (Response.grounding response) in
  (∀ outer inner : string,
     (outer, inner) ∈ extract_nested_tables response ↔
       ∃ (i j : nat) a b,
         tables !! i = Some a ∧ tables !! j = Some b ∧ (i < j)%nat ∧
         (((outer, inner) = (a.1, b.1) ∧
             inside (Grounding.box b.2) (Grounding.box a.2) = true) ∨
          ((outer, inner) = (b.1, a.1) ∧
             inside (Grounding.box b.2) (Grounding.box a.2) = false ∧
             inside (Grounding.box a.2) (Grounding.box b.2) = true))) ∧
  (2 * length (extract_nested_tables response) ≤
     length tables * (length tables - 1))%nat.
Proof.
  intros tables. split.
  - intros outer inner. unfold extract_nested_tables. fold tables.
    rewrite nested_pairs_elem. by setoid_rewrite nested_pair_elem.
  - apply nested_pairs_length.
Qed.

Lemma inside_both_same (a b : Box.t) :
  inside a b = true → inside b a = true → Box.same a b.
Proof.
  unfold inside, Box.same. rewrite !andb_true_iff, !Qle_bool_true.
  intros (((H1 & H2) & H3) & H4) (((H5 & H6) & H7) & H8).
  repeat split; by apply Qle_antisym.
Qed.

(** X8: comparing two tables in the other order gives the mirrored answer:
    neither way stays neither, "the second contains the first" becomes
    "the first contains the second", and "the first contains the second"
    becomes "the second contains the first" unless the two boxes have the
    same coordinates. *)
Theorem nested_swap (a b : Grounding.t) :
  match nested a b with
  | Neither => nested b a = Neither
  | BContainsA => nested b a = AContainsB
  | AContainsB =>
      nested b a = BContainsA ∨
      (nested b a = AContainsB ∧ Box.same (Grounding.box a) (Grounding.box b))
  end.
Proof.
  unfold nested.
  destruct (inside (Grounding.box b) (Grounding.box a)) eqn:Hba;
    destruct (inside (Grounding.box a) (Grounding.box b)) eqn:Hab; auto.
  right. split; [done|]. by apply inside_both_same.
Qed.





(** ** find_specific_cells *)

Lemma classify_fold (cells : list (string * Grounding.t)) :
  ∀ found : FindSpecificCells.Found,
    foldl FindSpecificCells.classify found cells =
      FindSpecificCells.MkFound
        (FindSpecificCells.header_cells found ++
           filter (λ it, FindSpecificCells.position_test
                           (λ pos, Position.row pos =? 0) it = true) cells)
        (FindSpecificCells.first_column found ++
           filter (λ it, FindSpecificCells.position_test
                           (λ pos, Position.col pos =? 0) it = true) cells)
        (FindSpecificCells.merged_cells found ++
           filter (λ it, FindSpecificCells.position_test
                           (λ pos, (1 <? Position.rowspan pos) ||
                                   (1 <? Position.colspan pos)) it = true) cells)
        (FindSpecificCells.corner_cells found ++
           filter (λ it, FindSpecificCells.position_test
                           (λ pos, (Position.row pos =? 0) &&
                                   (Position.col pos =? 0)) it = true) cells).
Proof.
  induction cells as [|it cells IH]; intros found.
  - simpl. rewrite !app_nil_r. by destruct found.
  - cbn [foldl]. rewrite IH. unfold FindSpecificCells.classify.
    cbn [FindSpecificCells.header_cells FindSpecificCells.first_column
         FindSpecificCells.merged_cells FindSpecificCells.corner_cells].
    rewrite !filter_cons.
    f_equal;
      match goal with
      | |- context [FindSpecificCells.position_test ?p it] =>
          destruct (FindSpecificCells.position_test p it) eqn:E
      end;
      rewrite ?decide_True, ?decide_False by (done || congruence);
      by rewrite <- ?app_assoc.
Qed.

(** X10: the four lists of [find_specific_cells] hold table cells that have
    a position, in document order: the header cells are those of row 0, the
    first-column cells those of column 0, the merged cells those with a
    span above 1; and the corner cells are exactly the header cells of
    column 0, which are the first-column cells of row 0. *)
Theorem specific_cells_lists (response : Response.t) :
  let cells := (FindSpecificCells.find_specific_cells response).1 in
  let found := (FindSpecificCells.find_specific_cells response).2 in
  let at_position (P : Position.t → Prop) (it : string * Grounding.t) :=
    ∃ pos, Grounding.position it.2 = Some pos ∧ P pos in
  cells = of_type "tableCell" (Response.grounding response) ∧
  (∀ it, it ∈ FindSpecificCells.header_cells found ↔
     it ∈ cells ∧ at_position (λ pos, Position.row pos = 0) it) ∧
  (∀ it, it ∈ FindSpecificCells.first_column found ↔
     it ∈ cells ∧ at_position (λ pos, Position.col pos = 0) it) ∧
  (∀ it, it ∈ FindSpecificCells.merged_cells found ↔
     it ∈ cells ∧
     at_position (λ pos, 1 < Position.rowspan pos ∨ 1 < Position.colspan pos) it) ∧
  FindSpecificCells.corner_cells found =
    filter (λ it, FindSpecificCells.position_test
                    (λ pos, Position.col pos =? 0) it = true)
           (FindSpecificCells.header_cells found) ∧
  FindSpecificCells.corner_cells found =
    filter (λ it, FindSpecificCells.position_test
                    (λ pos, Position.row pos =? 0) it = true)
           (FindSpecificCells.first_column found) ∧
  FindSpecificCells.header_cells found `sublist_of` cells ∧
  FindSpecificCells.first_column found `sublist_of` cells ∧
  FindSpecificCells.merged_cells found `sublist_of` cells.
Proof.
  intros cells found at_position.
  assert (Hfound : found = foldl FindSpecificCells.classify
                     (FindSpecificCells.MkFound [] [] [] []) cells) by done.
  rewrite classify_fold in Hfound. simpl in Hfound.
  assert (Htest : ∀ (p : Position.t → bool) (P : Position.t → Prop) it,
            (∀ pos, p pos = true ↔ P pos) →
            FindSpecificCells.position_test p it = true ↔ at_position P it).
  { intros p P it HpP. unfold FindSpecificCells.position_test, at_position.
    destruct (Grounding.position it.2) as [pos|].
    - rewrite HpP. split; [by exists pos|]. by intros (? & [= <-] & ?).
    - split; [done|]. by intros (? & ? & _). }
  rewrite Hfound. cbn [FindSpecificCells.header_cells
    FindSpecificCells.first_column FindSpecificCells.merged_cells
    FindSpecificCells.corner_cells].
  split; [done|].
  split; [|split; [|split; [|split; [|split]]]].
  - intros it. rewrite list_elem_of_filter.
    rewrite (Htest _ (λ pos, Position.row pos = 0)); [tauto|].
    intros pos. apply Z.eqb_eq.
  - intros it. rewrite list_elem_of_filter.
    rewrite (Htest _ (λ pos, Position.col pos = 0)); [tauto|].
    intros pos. apply Z.eqb_eq.
  - intros it. rewrite list_elem_of_filter.
    rewrite (Htest _ (λ pos, 1 < Position.rowspan pos ∨ 1 < Position.colspan pos));
      [tauto|].
    intros pos. rewrite orb_true_iff, !Z.ltb_lt. done.
  - rewrite list_filter_filter. apply list_filter_iff. intros it.
    unfold FindSpecificCells.position_test.
    destruct (Grounding.position it.2); [|tauto].
    rewrite andb_true_iff. tauto.
  - rewrite list_filter_filter. apply list_filter_iff. intros it.
    unfold FindSpecificCells.position_test.
    destruct (Grounding.position it.2); [|tauto].
    rewrite andb_true_iff. tauto.
  - repeat split; apply sublist_filter.
Qed.

(** ** extract_table_with_headers *)

Import ExtractWithHeaders.

Lemma elem_of_enumerate_from {A : Type} (l : list A) :
  ∀ (k : Z) (x : Z * A),
    x ∈ Py.enumerate_from k l ↔
      ∃ i : nat, x.1 = k + Z.of_nat i ∧ l !! i = Some x.2.
Proof.
  induction l as [|a l IH]; intros k x; simpl.
  - rewrite elem_of_nil. split; [done|]. by intros (i & _ & ?).
  - rewrite elem_of_cons, IH. split.
    + intros [->|(i & Hi & Hx)].
      * exists 0%nat. simpl. split; [lia|done].
      * exists (S i). simpl. split; [lia|done].
    + intros ([|i] & Hi & Hx); simpl in *.
      * left. destruct x as [x1 x2]. simpl in *. injection Hx as ->.
        f_equal. lia.
      * right. exists i. split; [lia|done].
Qed.

Lemma omap_length_le {A B : Type} (f : A → option B) (l : list A) :
  (length (omap f l) ≤ length l)%nat.
Proof.
  induction l as [|x l IH]; [done|]. cbn [omap list_omap].
  fold (omap f l). destruct (f x); simpl; lia.
Qed.

Lemma has_data_iff (cells : gmap (Z * Z) (string * string))
    (headers : list string) (row : Z) :
  has_data cells headers row = true ↔
    ∃ col, 0 ≤ col < Z.of_nat (length headers) ∧ is_Some (cells !! (row, col)).
Proof.
  unfold has_data, Py.enumerate. rewrite existsb_exists. split.
  - intros ([col h] & Hin & Hs).
    apply list_elem_of_In, elem_of_enumerate_from in Hin as (i & Hi & Hh).
    apply bool_decide_eq_true in Hs. simpl in *.
    apply lookup_lt_Some in Hh. exists col. split; [lia|done].
  - intros (col & Hcol & Hs).
    destruct (lookup_lt_is_Some_2 headers (Z.to_nat col)) as [h Hh]; [lia|].
    exists (col, h). split.
    + apply list_elem_of_In, elem_of_enumerate_from.
      exists (Z.to_nat col). simpl. split; [lia|done].
    + by apply bool_decide_eq_true.
Qed.

Lemma collect_rows_prefix (cells : gmap (Z * Z) (string * string))
    (headers : list string) (rows : list Z) :
  collect_rows cells headers rows =
    row_data_of cells headers <$>
      take (length (collect_rows cells headers rows)) rows ∧
  Forall (λ row, has_data cells headers row = true)
         (take (length (collect_rows cells headers rows)) rows) ∧
  (∀ row, rows !! length (collect_rows cells headers rows) = Some row →
          has_data cells headers row = false).
Proof.
  induction rows as [|row rows IH]; [by repeat split|].
  cbn [collect_rows]. destruct (has_data cells headers row) eqn:E.
  - cbn [length take]. destruct IH as (IH1 & IH2 & IH3).
    split; [by rewrite fmap_cons, <- IH1|]. split; [by constructor|].
    exact IH3.
  - cbn [length take]. split; [done|]. split; [done|].
    by intros ? [= <-].
Qed.

(** X11: the data rows are taken from the table rows 1, 2, ... (at most up
    to row 99) as long as the row has a cell in one of the first n columns,
    n being the number of headers, and from no row after the first row
    that has none; at most ten headers are taken.  Rows are returned
    exactly when there is a header and row 1 has such a cell. *)
Theorem data_rows_stop_at_first_gap (response : Response.t)
    (table_chunk : Chunk.t) (others : list Chunk.t) :
  table_chunks response = table_chunk :: others →
  let cells := collect_cells table_chunk (Response.grounding response) in
  let headers := headers_of cells in
  let data_rows := data_rows_of cells headers in
  let n := Z.of_nat (length data_rows) in
  let row_has_data (row : Z) :=
    ∃ col, 0 ≤ col < Z.of_nat (length headers) ∧ is_Some (cells !! (row, col)) in
  (length headers ≤ 10)%nat ∧ n ≤ 99 ∧
  data_rows = row_data_of cells headers <$> Py.range 1 (n + 1) ∧
  (∀ row, 1 ≤ row ≤ n → row_has_data row) ∧
  (n < 99 → ¬ row_has_data (n + 1)) ∧
  (headers ≠ [] ∧ row_has_data 1 →
   extract_table_with_headers response = Some data_rows) ∧
  (¬ (headers ≠ [] ∧ row_has_data 1) →
   extract_table_with_headers response = None).
Proof.
  intros Htc cells headers data_rows n row_has_data.
  destruct (collect_rows_prefix cells headers (Py.range 1 100))
    as (Hpre & Hall & Hstop).
  fold (data_rows_of cells headers) in Hpre, Hall, Hstop.
  fold data_rows in Hpre, Hall, Hstop.
  assert (Hn : n ≤ 99).
  { apply (f_equal length) in Hpre.
    rewrite length_fmap, length_take in Hpre. unfold Py.range in Hpre.
    rewrite length_seqZ in Hpre. lia. }
  assert (Htake : take (length data_rows) (Py.range 1 100) = Py.range 1 (n + 1)).
  { unfold Py.range.
    replace (100 - 1) with ((n + 1 - 1) + (99 - n)) by lia.
    rewrite seqZ_app by lia. rewrite take_app_length'; [done|].
    rewrite length_seqZ. lia. }
  rewrite Htake in Hpre, Hall.
  assert (Hrows : ∀ row, 1 ≤ row ≤ n → row_has_data row).
  { intros row Hrow. apply has_data_iff.
    rewrite Forall_forall in Hall. apply Hall.
    unfold Py.range. apply elem_of_seqZ. lia. }
  assert (Hgap : n < 99 → ¬ row_has_data (n + 1)).
  { intros Hlt Hdata. apply has_data_iff in Hdata.
    rewrite (Hstop (n + 1)) in Hdata; [done|].
    unfold Py.range. rewrite lookup_seqZ_lt by lia. f_equal. lia. }
  split; [|split; [done|split; [done|split; [done|split; [done|]]]]].
  - unfold headers, headers_of.
    etrans; [apply omap_length_le|]. unfold Py.range. by rewrite length_seqZ.
  - unfold extract_table_with_headers. rewrite Htc.
    fold cells headers data_rows.
    destruct headers as [|h hs] eqn:Eh.
    { split; [by intros [? _]|done]. }
    rewrite <- Eh in *.
    destruct data_rows as [|r rs] eqn:Ed.
    + split; [|done]. intros [_ Hdata]. exfalso.
      apply Hgap; [simpl in *; lia|]. done.
    + split; [done|]. intros Hnot. exfalso. apply Hnot.
      split; [by rewrite Eh|]. apply Hrows. simpl in *. lia.
Qed.

Lemma data_rows_stop_at_first_gap_witness :
  extract_table_with_headers Samples.totals_cells =
    Some [[("Cell_0_0", "Cell_1_0"); ("Cell_0_1", "Cell_1_1")];
          [("Cell_0_0", "Cell_2_0")]].
Proof.
  refine (eq_trans (proj1 (proj2 (proj2 (proj2 (proj2 (proj2
    (data_rows_stop_at_first_gap Samples.totals_cells
       (Samples.table_chunk "t" Samples.totals_html) [] eq_refl)))))) _) _).
  - split; [vm_compute; discriminate|]. exists 0. split; [vm_compute; done|].
    vm_compute. eauto.
  - vm_compute. reflexivity.
Defined.

Lemma collect_cells_content (table_chunk : Chunk.t)
    (items : list (string * Grounding.t)) (key : Z * Z) (cell : string * string) :
  collect_cells table_chunk items !! key = Some cell →
  cell.2 = "Cell_" +:+ Py.str key.1 +:+ "_" +:+ Py.str key.2.
Proof.
  unfold collect_cells. revert key cell.
  apply (foldl_invariant
    (λ m : gmap (Z * Z) (string * string), ∀ key cell, m !! key = Some cell →
       cell.2 = "Cell_" +:+ Py.str key.1 +:+ "_" +:+ Py.str key.2)).
  - intros m it Hm key cell.
    case_decide; [|by apply Hm].
    destruct (Grounding.position it.2) as [pos|]; [|by apply Hm].
    case_decide; [|by apply Hm].
    destruct (decide ((Position.row pos, Position.col pos) = key)) as [<-|Hne].
    + rewrite lookup_insert_eq. by intros [= <-].
    + rewrite lookup_insert_ne by done. apply Hm.
  - intros key cell Hk. by rewrite lookup_empty in Hk.
Qed.

Lemma omap_lookup_rank {A B : Type} (f : A → option B) (l : list A) :
  ∀ (j : nat) (y : B),
    omap f l !! j = Some y ↔
      ∃ (i : nat) (x : A), l !! i = Some x ∧ f x = Some y ∧
                           j = length (omap f (take i l)).
Proof.
  induction l as [|a l IH]; intros j y.
  - split; [done|]. by intros (i & x & Hx & _).
  - cbn [omap list_omap]. fold (omap f l). split.
    + destruct (f a) as [b|] eqn:Ea.
      * destruct j as [|j]; simpl.
        -- intros [= <-]. by exists 0%nat, a.
        -- intros Hj. apply IH in Hj as (i & x & Hx & Hy & ->).
           exists (S i), x. repeat split; [done..|].
           cbn [take omap list_omap]. fold (omap f (take i l)).
           by rewrite Ea.
      * intros Hj. apply IH in Hj as (i & x & Hx & Hy & ->).
        exists (S i), x. repeat split; [done..|].
        cbn [take omap list_omap]. fold (omap f (take i l)).
        by rewrite Ea.
    + intros ([|i] & x & Hx & Hy & ->).
      * simpl in Hx. injection Hx as ->. by rewrite Hy.
      * cbn [take omap list_omap]. fold (omap f (take i l)).
        simpl in Hx.
        assert (omap f l !! length (omap f (take i l)) = Some y) as Hl.
        { apply IH. by exists i, x. }
        by destruct (f a).
Qed.

Lemma NoDup_omap_inj {A B : Type} (f : A → option B) (l : list A) :
  (∀ x x' y, f x = Some y → f x' = Some y → x = x') →
  NoDup l → NoDup (omap f l).
Proof.
  intros Hinj. induction 1 as [|a l Ha Hl IH]; [constructor|].
  cbn [omap list_omap]. fold (omap f l).
  destruct (f a) as [b|] eqn:Ea; [|done].
  constructor; [|done]. rewrite list_elem_of_omap.
  intros (x & Hx & Hfx). by rewrite (Hinj a x b Ea Hfx) in Ha.
Qed.

Lemma dict_get_set (k k' v : string) (d : list (string * string)) :
  dict_get k (dict_set k' v d) =
    if decide (k' = k) then Some v else dict_get k d.
Proof.
  induction d as [|kv d IH]; simpl.
  - done.
  - destruct (decide (kv.1 = k')) as [E|E]; simpl.
    + repeat case_decide; congruence.
    + rewrite IH. repeat case_decide; congruence.
Qed.

Lemma row_data_get (cells : gmap (Z * Z) (string * string)) (row : Z)
    (h : string) (hs : list string) :
  NoDup hs →
  ∀ (k : Z) (d : list (string * string)),
    let step := λ (row_data : list (string * string)) (ch : Z * string),
      match cells !! (row, ch.1) with
      | Some cell => dict_set ch.2 cell.2 row_data
      | None => row_data
      end in
    dict_get h (foldl step d (Py.enumerate_from k hs)) =
      match list_find (λ x, x = h) hs with
      | Some (i, _) =>
          match cells !! (row, k + Z.of_nat i) with
          | Some cell => Some cell.2
          | None => dict_get h d
          end
      | None => dict_get h d
      end.
Proof.
  induction 1 as [|x hs Hx Hhs IH]; intros k d step; [done|].
  cbn [Py.enumerate_from foldl list_find]. fold step. rewrite IH.
  destruct (decide (x = h)) as [->|Hne].
  - assert (list_find (λ x, x = h) hs = None) as ->.
    { apply list_find_None, Forall_forall. intros y Hy ->. done. }
    simpl. replace (k + Z.of_nat 0) with k by lia. unfold step. simpl.
    destruct (cells !! (row, k)); [|done].
    rewrite dict_get_set. by rewrite decide_True.
  - assert (dict_get h (step d (k, x)) = dict_get h d) as Hd.
    { unfold step. simpl. destruct (cells !! (row, k)); [|done].
      rewrite dict_get_set. by rewrite decide_False. }
    destruct (list_find (λ x, x = h) hs) as [[i y]|]; simpl; [|done].
    replace (k + 1 + Z.of_nat i) with (k + Z.of_nat (S i)) by lia.
    by rewrite Hd.
Qed.

Lemma append_inj_r (a b c : string) : a +:+ b = a +:+ c → b = c.
Proof.
  induction a as [|x a IH]; [done|]. rewrite !append_cons.
  intros [= H]. by apply IH.
Qed.

(** X12: the headers are distinct; the j-th header is the content of the
    header cell of some column col >= j among 0..9, j being the number of
    header cells in the columns below col; and each data row stores under
    the j-th header the content of its cell in column j (nothing if it has
    none there), so that the value goes with the header of its own column
    only when no header cell is missing to the left. *)
Theorem headers_label_by_rank (table_chunk : Chunk.t)
    (items : list (string * Grounding.t)) :
  let cells := collect_cells table_chunk items in
  let headers := headers_of cells in
  let header_at (col : Z) := snd <$> cells !! (0, col) in
  NoDup headers ∧
  (∀ (j : nat) (header : string),
     headers !! j = Some header ↔
       ∃ col, 0 ≤ col < 10 ∧ header_at col = Some header ∧
              j = length (omap header_at (Py.range 0 col))) ∧
  (∀ (j : nat) (header : string) (col : Z),
     0 ≤ col < 10 → header_at col = Some header →
     j = length (omap header_at (Py.range 0 col)) →
     header = "Cell_0_" +:+ Py.str col ∧ Z.of_nat j ≤ col ∧
     (Z.of_nat j = col ↔ ∀ c, 0 ≤ c < col → is_Some (cells !! (0, c)))) ∧
  (∀ (row : Z) (j : nat) (header : string),
     headers !! j = Some header →
     dict_get header (row_data_of cells headers row) =
       snd <$> cells !! (row, Z.of_nat j)) ∧
  (∀ (row col : Z) (cell : string * string),
     cells !! (row, col) = Some cell →
     cell.2 = "Cell_" +:+ Py.str row +:+ "_" +:+ Py.str col).
Proof.
  intros cells headers header_at.
  assert (Hcontent : ∀ col header, header_at col = Some header →
            header = "Cell_0_" +:+ Py.str col).
  { intros col header. unfold header_at.
    destruct (cells !! (0, col)) as [cell|] eqn:E; [|done].
    intros [= <-]. by rewrite (collect_cells_content _ _ _ _ E). }
  assert (Hnodup : NoDup headers).
  { unfold headers, headers_of. apply NoDup_omap_inj; [|apply NoDup_seqZ].
    intros c c' h Hc Hc'. apply Hcontent in Hc, Hc'. subst h.
    apply append_inj_r in Hc'. by apply (inj pretty) in Hc'. }
  assert (Htake : ∀ i : nat, (i ≤ 10)%nat →
            take i (Py.range 0 10) = Py.range 0 (Z.of_nat i)).
  { intros i Hi. unfold Py.range.
    replace (10 - 0) with ((Z.of_nat i - 0) + (10 - Z.of_nat i)) by lia.
    rewrite seqZ_app by lia. rewrite take_app_length'; [done|].
    rewrite length_seqZ. lia. }
  split; [done|]. split; [|split; [|split]].
  - intros j header. unfold headers, headers_of.
    rewrite omap_lookup_rank. split.
    + intros (i & col & Hi & Hh & ->).
      unfold Py.range in Hi. apply lookup_seqZ in Hi as [-> Hi].
      exists (0 + Z.of_nat i). split; [lia|]. split; [done|].
      rewrite Htake by lia. by rewrite Z.add_0_l.
    + intros (col & Hcol & Hh & ->).
      exists (Z.to_nat col), col. split; [|split; [done|]].
      * unfold Py.range. rewrite lookup_seqZ_lt by lia. f_equal. lia.
      * rewrite Htake by lia. by rewrite Z2Nat.id by lia.
  - intros j header col Hcol Hh ->. split; [by apply Hcontent|].
    assert (Hlen : ∀ n : nat,
      (length (omap header_at (Py.range 0 (Z.of_nat n))) ≤ n)%nat ∧
      (length (omap header_at (Py.range 0 (Z.of_nat n))) = n ↔
         ∀ c, 0 ≤ c < Z.of_nat n → is_Some (cells !! (0, c)))).
    { induction n as [|n [IH1 IH2]].
      - split; [done|]. split; [intros _ c; lia|done].
      - unfold Py.range in *. rewrite Z.sub_0_r in *.
        rewrite seqZ_S, omap_app, length_app. cbn [omap list_omap].
        rewrite Z.add_0_l. unfold header_at at 2 4.
        destruct (cells !! (0, Z.of_nat n)) as [cell|] eqn:E; simpl.
        + split; [lia|]. split.
          * intros Hn c Hc. destruct (decide (c = Z.of_nat n)) as [->|];
              [by rewrite E|]. apply IH2; lia.
          * intros Hall.
            cut (length (omap header_at (seqZ 0 (Z.of_nat n))) = n); [lia|].
            apply IH2. intros c Hc. apply Hall. lia.
        + split; [lia|]. split; [lia|].
          intros Hall. destruct (Hall (Z.of_nat n)) as [? Hs]; [lia|].
          by rewrite E in Hs. }
    destruct (Hlen (Z.to_nat col)) as [H1 H2].
    rewrite Z2Nat.id in H1, H2 by lia. split; [lia|].
    rewrite <- H2. lia.
  - intros row j header Hj. unfold row_data_of, Py.enumerate.
    rewrite row_data_get by done.
    assert (list_find (λ x, x = header) headers = Some (j, header)) as ->.
    { apply list_find_Some. split; [done|]. split; [done|].
      intros i y Hy Hij ->.
      pose proof (NoDup_lookup _ _ _ _ Hnodup Hy Hj). lia. }
    rewrite Z.add_0_l. by destruct (cells !! (row, Z.of_nat j)).
  - intros row col cell Hcell.
    apply (collect_cells_content _ _ _ _ Hcell).
Qed.

(** ** compare_tables *)

Lemma size_list_to_set_le (l : list Z) :
  (size (list_to_set (C := gset Z) l) ≤ length l)%nat.
Proof.
  unfold size, set_size. simpl. apply submseteq_length.
  apply NoDup_submseteq; [apply NoDup_elements|].
  intros x. rewrite elem_of_elements. apply elem_of_list_to_set.
Qed.

Lemma size_list_to_set_pos (l : list Z) (x : Z) :
  x ∈ l → (1 ≤ size (list_to_set (C := gset Z) l))%nat.
Proof.
  intros Hx. rewrite <- (size_singleton (C := gset Z) x).
  apply subseteq_size. intros y Hy. apply elem_of_singleton in Hy as ->.
  by apply elem_of_list_to_set.
Qed.

(** X13: in the information on a table, the number of rows and the number
    of columns (distinct anchor rows and columns) are each at most the
    number of cells, both are at least 1 when there is a cell, and when no
    two cells share an anchor the number of cells is at most rows times
    columns. *)
Theorem table_info_counts (items : list (string * Grounding.t))
    (tc : CompareTables.TableChunk) :
  let info := CompareTables.table_info_of items tc in
  let positions := CompareTables.positions_of (CompareTables.chunk tc) items in
  CompareTables.cells info = length positions ∧
  (CompareTables.rows info ≤ CompareTables.cells info)%nat ∧
  (CompareTables.cols info ≤ CompareTables.cells info)%nat ∧
  (1 ≤ CompareTables.cells info →
   1 ≤ CompareTables.rows info ∧ 1 ≤ CompareTables.cols info)%nat ∧
  (NoDup ((λ p, (Position.row p, Position.col p)) <$> positions) →
   CompareTables.cells info ≤ CompareTables.rows info * CompareTables.cols info)%nat.
Proof.
  intros info positions. unfold info, CompareTables.table_info_of.
  fold positions. cbn [CompareTables.cells CompareTables.rows CompareTables.cols].
  split; [done|]. split; [|split; [|split]].
  - etrans; [apply size_list_to_set_le|]. by rewrite length_fmap.
  - etrans; [apply size_list_to_set_le|]. by rewrite length_fmap.
  - intros Hlen. destruct positions as [|p ps]; [simpl in Hlen; lia|].
    split; eapply size_list_to_set_pos; rewrite fmap_cons; left.
  - intros Hnd.
    set (R := list_to_set (C := gset Z) (Position.row <$> positions)).
    set (C := list_to_set (C := gset Z) (Position.col <$> positions)).
    rewrite <- (length_fmap (λ p, (Position.row p, Position.col p)) positions).
    unfold size, set_size. simpl.
    rewrite <- length_prod, <- list_cprod_list_prod.
    apply submseteq_length, NoDup_submseteq; [done|].
    intros [r c] Hrc. apply list_elem_of_fmap in Hrc as (p & [= -> ->] & Hp).
    apply list_elem_of_cprod. simpl. rewrite !elem_of_elements.
    unfold R, C. rewrite !elem_of_list_to_set.
    split; apply list_elem_of_fmap; by exists p.
Qed.

Lemma table_info_counts_witness :
  (CompareTables.cells
     (CompareTables.table_info_of (Response.grounding Samples.totals_cells)
        MoreSamples3.totals_chunk) ≤
   CompareTables.rows
     (CompareTables.table_info_of (Response.grounding Samples.totals_cells)
        MoreSamples3.totals_chunk) *
   CompareTables.cols
     (CompareTables.table_info_of (Response.grounding Samples.totals_cells)
        MoreSamples3.totals_chunk))%nat.
Proof.
  apply (table_info_counts (Response.grounding Samples.totals_cells)
           MoreSamples3.totals_chunk).
  apply (bool_decide_unpack (NoDup _)). vm_compute. exact I.
Defined.

Lemma elem_of_zip_seq {A : Type} (l : list A) :
  ∀ (k : nat) (x : nat * A),
    x ∈ zip (seq k (length l)) l ↔ ∃ m : nat, l !! m = Some x.2 ∧ x.1 = (k + m)%nat.
Proof.
  induction l as [|a l IH]; intros k x; simpl.
  - rewrite elem_of_nil. split; [done|]. by intros (m & ? & _).
  - rewrite elem_of_cons, IH. split.
    + intros [->|(m & Hm & Hx)].
      * exists 0%nat. simpl. split; [done|lia].
      * exists (S m). simpl. split; [done|lia].
    + intros ([|m] & Hm & Hx); simpl in *.
      * left. destruct x as [x1 x2]. simpl in *. injection Hm as ->.
        f_equal. lia.
      * right. exists m. split; [done|lia].
Qed.

Lemma similar_from_elem (infos : list CompareTables.TableInfo) :
  ∀ (k a b : nat),
    (a, b) ∈ CompareTables.similar_from k infos ↔
      ∃ (i j : nat) t1 t2,
        infos !! i = Some t1 ∧ infos !! j = Some t2 ∧ (i < j)%nat ∧
        a = S (k + i) ∧ b = S (k + j) ∧
        CompareTables.same_dimensions t1 t2 = true.
Proof.
  induction infos as [|t1 later IH]; intros k a b.
  - simpl. rewrite elem_of_nil. split; [done|]. by intros (i & j & ? & ? & ? & _).
  - cbn [CompareTables.similar_from].
    rewrite elem_of_app, list_elem_of_fmap, IH. split.
    + intros [([j t2] & [= -> ->] & Hin)|(i & j & u1 & u2 & H1 & H2 & Hij & -> & -> & Hs)].
      * apply list_elem_of_filter in Hin as [Hs Hin].
        apply elem_of_zip_seq in Hin as (m & Hm & Hj). simpl in *. subst j.
        exists 0%nat, (S m), t1, t2. simpl.
        split; [done|]. split; [done|]. split; [lia|].
        split; [f_equal; lia|]. split; [f_equal; lia|done].
      * exists (S i), (S j), u1, u2. simpl.
        split; [done|]. split; [done|]. split; [lia|].
        split; [f_equal; lia|]. split; [f_equal; lia|done].
    + intros (i & j & u1 & u2 & H1 & H2 & Hij & -> & -> & Hs).
      destruct j as [|j]; [lia|]. destruct i as [|i]; simpl in *.
      * injection H1 as <-. left. exists ((S k + j)%nat, u2).
        split; [simpl; f_equal; f_equal; lia|].
        apply list_elem_of_filter. split; [done|].
        apply elem_of_zip_seq. exists j. simpl. split; [done|lia].
      * right. exists i, j, u1, u2.
        split; [done|]. split; [done|]. split; [lia|].
        split; [f_equal; lia|]. split; [f_equal; lia|done].
Qed.

(** X14: the pairs printed as having the same dimensions are exactly the
    pairs of table numbers a < b (counted from 1) whose tables have the
    same number of rows and the same number of columns; hence with (a, b)
    and (b, c) also (a, c) is printed. *)
Theorem similar_pairs_characterised (infos : list CompareTables.TableInfo) :
  (∀ a b : nat,
     (a, b) ∈ CompareTables.similar_pairs infos ↔
       ∃ t1 t2, (1 ≤ a < b)%nat ∧
         infos !! (a - 1)%nat = Some t1 ∧ infos !! (b - 1)%nat = Some t2 ∧
         CompareTables.rows t1 = CompareTables.rows t2 ∧
         CompareTables.cols t1 = CompareTables.cols t2) ∧
  (∀ a b c : nat,
     (a, b) ∈ CompareTables.similar_pairs infos →
     (b, c) ∈ CompareTables.similar_pairs infos →
     (a, c) ∈ CompareTables.similar_pairs infos).
Proof.
  assert (Hchar : ∀ a b : nat,
     (a, b) ∈ CompareTables.similar_pairs infos ↔
       ∃ t1 t2, (1 ≤ a < b)%nat ∧
         infos !! (a - 1)%nat = Some t1 ∧ infos !! (b - 1)%nat = Some t2 ∧
         CompareTables.rows t1 = CompareTables.rows t2 ∧
         CompareTables.cols t1 = CompareTables.cols t2).
  { intros a b. unfold CompareTables.similar_pairs. rewrite similar_from_elem.
    unfold CompareTables.same_dimensions. split.
    - intros (i & j & t1 & t2 & H1 & H2 & Hij & -> & -> & Hs).
      apply andb_true_iff in Hs as [Hr Hc].
      apply Nat.eqb_eq in Hr, Hc. exists t1, t2. simpl.
      rewrite !Nat.sub_0_r. repeat split; (lia || done).
    - intros (t1 & t2 & Hab & H1 & H2 & Hr & Hc).
      exists (a - 1)%nat, (b - 1)%nat, t1, t2.
      split; [done|]. split; [done|]. split; [lia|].
      split; [lia|]. split; [lia|].
      apply andb_true_iff. by rewrite !Nat.eqb_eq. }
  split; [done|].
  intros a b c Hab Hbc. apply Hchar in Hab as (t1 & t2 & Hab & H1 & H2 & Hr & Hc).
  apply Hchar in Hbc as (t2' & t3 & Hbc & H2' & H3 & Hr' & Hc').
  rewrite H2 in H2'. injection H2' as <-.
  apply Hchar. exists t1, t3. repeat split; (lia || congruence).
Qed.

(** ** get_pdf_cell *)

Lemma getitem_spec {A : Type} (l : list A) (i : Z) :
  let n := Z.of_nat (length l) in
  (∀ x, 0 ≤ i → l !! Z.to_nat i = Some x → Py.getitem l i = Py.Return x) ∧
  (- n ≤ i < 0 → Py.getitem l i = Py.getitem l (i + n)) ∧
  (i < - n ∨ n ≤ i →
   Py.getitem l i = Py.Raise (Py.IndexError "list index out of range")).
Proof.
  intros n. unfold Py.getitem. fold n. split; [|split].
  - intros x Hi Hx. pose proof (lookup_lt_Some _ _ _ Hx) as Hlt.
    destruct (Z.ltb_spec i 0); [lia|].
    destruct (Z.ltb_spec i 0); [lia|]. destruct (Z.leb_spec n i); [lia|].
    simpl. by rewrite Hx.
  - intros Hi.
    assert ((i <? 0) = true) as Ei by (apply Z.ltb_lt; lia).
    assert ((i + n <? 0) = false) as Ein by (apply Z.ltb_ge; lia).
    by rewrite Ei, !Ein.
  - intros Hi. destruct (Z.ltb_spec i 0).
    + destruct Hi; [|lia]. destruct (Z.ltb_spec (i + n) 0); [done|lia].
    + destruct Hi; [lia|]. destruct (Z.ltb_spec i 0); [lia|].
      destruct (Z.leb_spec n i); [done|lia].
Qed.

(** X15: a negative table index counts from the end: with n tables, an
    index i with -n <= i < 0 gives what index i + n gives, and an index
    below -n raises IndexError. *)
Theorem negative_table_index (response : Response.t) (row col i : Z) :
  let n := Z.of_nat (length (table_chunks response)) in
  table_chunks response ≠ [] →
  i < 0 →
  (- n ≤ i → get_pdf_cell response row col i = get_pdf_cell response row col (i + n)) ∧
  (i < - n → get_pdf_cell response row col i =
               Py.Raise (Py.IndexError "list index out of range")).
Proof.
  intros n Hne Hi.
  assert (0 ≤ n) as Hn0 by (unfold n; lia).
  destruct (getitem_spec (table_chunks response) i) as (_ & Hneg & Hout).
  fold n in Hneg, Hout.
  assert ((n <=? i) = false) as En by (apply Z.leb_gt; lia).
  unfold get_pdf_cell. fold n. rewrite En. clearbody n.
  destruct (table_chunks response) as [|t ts]; [done|].
  split.
  - intros Hn.
    assert ((n <=? i + n) = false) as -> by (apply Z.leb_gt; lia).
    by rewrite Hneg by lia.
  - intros Hn. by rewrite Hout by lia.
Qed.

Lemma negative_table_index_witness :
  get_pdf_cell Samples.two_tables 0 0 (-1) = Py.Return "b" ∧
  get_pdf_cell Samples.two_tables 0 0 (-3) =
    Py.Raise (Py.IndexError "list index out of range").
Proof.
  destruct (negative_table_index Samples.two_tables 0 0 (-1)) as [H1 _];
    [vm_compute; discriminate|lia|].
  destruct (negative_table_index Samples.two_tables 0 0 (-3)) as [_ H2];
    [vm_compute; discriminate|lia|].
  split.
  - rewrite H1 by (vm_compute; discriminate). vm_compute. reflexivity.
  - apply H2. vm_compute. reflexivity.
Defined.

Lemma pair_le_total : Total Py.pair_le.
Proof. intros [a b] [c d]. unfold Py.pair_le. simpl. lia. Qed.

Lemma pair_le_trans : Transitive Py.pair_le.
Proof. intros [a b] [c d] [e f]. unfold Py.pair_le. simpl. lia. Qed.

(** X16: with the table at a valid index selected, [get_pdf_cell] returns
    the text of the col-th [<td>] match of the row-th [<tr>] match when row
    and col are not negative and these matches exist; in every other case
    it raises a KeyError, whose message lists every coordinate of the grid
    once, in lexicographic order. *)
Theorem get_pdf_cell_result (response : Response.t) (row col i : Z)
    (table : Chunk.t) :
  0 ≤ i → table_chunks response !! Z.to_nat i = Some table →
  let rows := Re.findall tr_re (Chunk.markdown table) in
  let grid := parse_grid (Chunk.markdown table) in
  let listed := Py.sorted (map_to_list grid).*1 in
  (∀ m, td_at rows row col = Some m →
     get_pdf_cell response row col i = Py.Return (td_value m)) ∧
  (td_at rows row col = None →
     get_pdf_cell response row col i =
       Py.Raise (Py.KeyError
         ("No cell at (" +:+ Py.str row +:+ ", " +:+ Py.str col
          +:+ "). Available: " +:+ Py.repr_list Py.repr_pair listed))) ∧
  (row < 0 ∨ col < 0 → td_at rows row col = None) ∧
  StronglySorted Py.pair_le listed ∧ NoDup listed ∧
  (∀ r c, (r, c) ∈ listed ↔ is_Some (td_at rows r c)).
Proof.
  intros Hi Htable rows grid listed.
  assert (Hget : get_pdf_cell response row col i =
            match grid !! (row, col) with
            | None => Py.Raise (Py.KeyError
                ("No cell at (" +:+ Py.str row +:+ ", " +:+ Py.str col
                 +:+ "). Available: " +:+ Py.repr_list Py.repr_pair listed))
            | Some v => Py.Return v
            end).
  { unfold get_pdf_cell.
    pose proof (lookup_lt_Some _ _ _ Htable) as Hlt.
    destruct (table_chunks response) as [|t ts] eqn:E; [done|].
    rewrite <- E in *.
    destruct (Z.leb_spec (Z.of_nat (length (table_chunks response))) i); [lia|].
    destruct (getitem_spec (table_chunks response) i) as (Hin & _ & _).
    by rewrite (Hin table Hi Htable). }
  assert (Hlisted : listed ≡ₚ (map_to_list grid).*1)
    by apply merge_sort_Permutation.
  split; [|split; [|split; [|split; [|split]]]].
  - intros m Hm. rewrite Hget. unfold grid. rewrite parse_grid_lookup.
    fold rows. by rewrite Hm.
  - intros Hnone. rewrite Hget. unfold grid at 1. rewrite parse_grid_lookup.
    fold rows. by rewrite Hnone.
  - intros Hneg. unfold td_at. rewrite decide_False; [done|]. lia.
  - apply (@StronglySorted_merge_sort _ Py.pair_le _ pair_le_trans pair_le_total).
  - rewrite Hlisted. apply NoDup_fst_map_to_list.
  - intros r c. rewrite Hlisted. rewrite list_elem_of_fmap.
    unfold grid. split.
    + intros ([k v] & [= <-] & Hkv). apply elem_of_map_to_list in Hkv.
      rewrite parse_grid_lookup in Hkv. fold rows in Hkv.
      destruct (td_at rows r c); [by eexists|done].
    + intros [m Hm]. exists ((r, c), td_value m). split; [done|].
      apply elem_of_map_to_list. rewrite parse_grid_lookup. fold rows.
      by rewrite Hm.
Qed.

Lemma get_pdf_cell_result_witness :
  get_pdf_cell Samples.totals_pdf 1 1 0 = Py.Return "100".
Proof.
  destruct (get_pdf_cell_result Samples.totals_pdf 1 1 0
              (Samples.table_chunk "t" Samples.totals_html)) as [Hret _].
  - lia.
  - reflexivity.
  - rewrite (Hret (Re.MkMatch "<td>100</td>" ["100"])); vm_compute; reflexivity.
Defined.

(** ** get_spreadsheet_cell *)

Lemma search_Some (tables : list Chunk.t) (cell_id v : string) :
  GetSpreadsheetCell.search tables cell_id = Some v ↔
    ∃ before table after,
      tables = (before ++ table :: after)%list ∧
      Forall (λ t, GetSpreadsheetCell.cell_text (Chunk.markdown t) !! cell_id
                     = None) before ∧
      GetSpreadsheetCell.cell_text (Chunk.markdown table) !! cell_id = Some v.
Proof.
  induction tables as [|t ts IH]; simpl.
  - split; [done|]. intros (b & t & a & H & _). by destruct b.
  - destruct (GetSpreadsheetCell.cell_text (Chunk.markdown t) !! cell_id)
      as [w|] eqn:E.
    + split.
      * intros [= ->]. by exists [], t, ts.
      * intros ([|b bs] & t' & a & H & Hb & Hv); simpl in H.
        -- injection H as <- <-. congruence.
        -- injection H as <- _. apply Forall_cons in Hb as [Hb _]. congruence.
    + rewrite IH. split.
      * intros (b & t' & a & -> & Hb & Hv). exists (t :: b), t', a.
        split; [done|]. split; [by constructor|done].
      * intros ([|b bs] & t' & a & H & Hb & Hv); simpl in H.
        -- injection H as <- <-. congruence.
        -- injection H as <- ->. apply Forall_cons in Hb as [_ Hb].
           by exists bs, t', a.
Qed.

(** X17: [get_spreadsheet_cell] returns a value exactly when some table has
    the id, and the value is that of the first such table in document
    order. *)
Theorem spreadsheet_first_table_wins (response : Response.t)
    (cell_id v : string) :
  GetSpreadsheetCell.get_spreadsheet_cell response cell_id = Py.Return v ↔
    ∃ before table after,
      table_chunks response = (before ++ table :: after)%list ∧
      Forall (λ t, GetSpreadsheetCell.cell_text (Chunk.markdown t) !! cell_id
                     = None) before ∧
      GetSpreadsheetCell.cell_text (Chunk.markdown table) !! cell_id = Some v.
Proof.
  rewrite <- search_Some. unfold GetSpreadsheetCell.get_spreadsheet_cell.
  destruct (table_chunks response) as [|t ts] eqn:E; [done|].
  destruct (GetSpreadsheetCell.search (t :: ts) cell_id) as [w|].
  - split; by intros [= ->].
  - done.
Qed.

Lemma foldl_insert_last {A : Type} (key value : A → string) (k : string)
    (l : list A) :
  ∀ m : gmap string string,
    foldl (λ m x, <[key x := value x]> m) m l !! k =
      match last (filter (λ x, key x = k) l) with
      | Some x => Some (value x)
      | None => m !! k
      end.
Proof.
  induction l as [|x l IH]; intros m; [done|].
  cbn [foldl]. rewrite IH, filter_cons.
  destruct (decide (key x = k)) as [<-|Hne].
  - destruct (filter (λ x0, key x0 = key x) l) as [|y ys] eqn:E.
    + simpl. by rewrite lookup_insert_eq.
    + change (last (x :: y :: ys)) with (last (y :: ys)).
      destruct (last (y :: ys)) as [z|] eqn:El; [done|].
      by apply last_None in El.
  - destruct (last (filter (λ x0, key x0 = k) l)); [done|].
    by rewrite lookup_insert_ne.
Qed.

(** X18: within one table, the value kept for an id is that of the last
    [<td>] match that carries the id; an id that no match carries has no
    value. *)
Theorem duplicate_id_last_wins (markdown cell_id : string) :
  GetSpreadsheetCell.cell_text markdown !! cell_id =
    (λ m, Py.strip (Re.sub GetSpreadsheetCell.tag_re "" (Re.group m 2))) <$>
      last (filter (λ m, Re.group m 1 = cell_id)
                   (Re.finditer GetSpreadsheetCell.id_cell_re markdown)).
Proof.
  unfold GetSpreadsheetCell.cell_text.
  rewrite (foldl_insert_last (λ m, Re.group m 1)
             (λ m, Py.strip (Re.sub GetSpreadsheetCell.tag_re "" (Re.group m 2)))).
  rewrite lookup_empty. by destruct (last _).
Qed.

(** ** The text of a cell: tags removed, whitespace stripped *)

Lemma greedy_upto_gt (k : Re.mstate → option Re.mstate) (s : string) :
  (∀ p s g, k (Re.MState p s g) =
     match s with
     | String c s' => if Ascii.eqb ">" c
                      then Some (Re.MState (Some c) s' g) else None
     | EmptyString => None
     end) →
  ∀ (n : nat) (p : option ascii) (g : list string),
    (String.length s ≤ n)%nat →
    ReSpec.greedy (Re.NoneOf [">"%char]) k n (Re.MState p s g) =
      match ReSpec.upto_gt s with
      | Some (_, r) => Some (Re.MState (Some ">"%char) r g)
      | None => None
      end.
Proof.
  intros Hk. induction s as [|c s IH]; intros n p g Hn.
  - destruct n; simpl; by rewrite Hk.
  - destruct n as [|n]; [simpl in Hn; lia|].
    cbn [ReSpec.greedy]. fold (ReSpec.greedy (Re.NoneOf [">"%char]) k n).
    cbn [Re.run]. unfold Re.step. cbn [Re.rest Re.groups].
    unfold Re.inset. cbn [existsb]. rewrite orb_false_r.
    cbn [ReSpec.upto_gt]. rewrite (Ascii.eqb_sym c).
    destruct (Ascii.eqb ">" c) eqn:E.
    + cbn [negb]. rewrite Hk, E. apply Ascii.eqb_eq in E. by subst c.
    + cbn [negb]. rewrite IH by (simpl in Hn; lia).
      destruct (ReSpec.upto_gt s) as [[b r]|]; [done|].
      by rewrite Hk, E.
Qed.

Lemma run_tag (p : option ascii) (s : string) (g : list string) :
  Re.run tag_re (Re.MState p s g) Some =
    (λ r, Re.MState (Some ">"%char) r g) <$> ReSpec.match_tag s.
Proof.
  change (Re.run tag_re (Re.MState p s g) Some)
    with (Re.step (Ascii.eqb "<") (Re.MState p s g) (λ st1,
            Re.step (λ c, negb (Re.inset [">"%char] c)) st1
              (ReSpec.greedy (Re.NoneOf [">"%char])
                 (λ st', Re.step (Ascii.eqb ">") st' (λ st'', Some st''))
                 (String.length (Re.rest st1))))).
  unfold Re.step at 1. cbn [Re.rest Re.groups].
  destruct s as [|c s1]; [done|].
  cbn [ReSpec.match_tag]. destruct (Ascii.eqb "<" c) eqn:Ec; [|done].
  unfold Re.step at 1. cbn [Re.rest Re.groups].
  destruct s1 as [|d s2]; [done|].
  unfold Re.inset. cbn [existsb]. rewrite orb_false_r.
  cbn [ReSpec.upto_gt]. rewrite (Ascii.eqb_sym d).
  destruct (Ascii.eqb ">" d) eqn:Ed; [done|]. cbn [negb].
  rewrite greedy_upto_gt.
  - by destruct (ReSpec.upto_gt s2) as [[b r]|].
  - intros p' s' g'. unfold Re.step. cbn [Re.rest Re.groups].
    destruct s' as [|c' s'']; [done|]. by destruct (Ascii.eqb ">" c').
  - simpl. lia.
Qed.

Lemma upto_gt_None (s : string) :
  ReSpec.upto_gt s = None ↔ Text.count_char ">" s = 0%nat.
Proof.
  induction s as [|c s IH]; [done|]. cbn [ReSpec.upto_gt Text.count_char].
  destruct (Ascii.eqb ">" c).
  - split; [done|lia].
  - destruct (ReSpec.upto_gt s) as [[b r]|].
    + split; [done|]. intros H. by apply IH in H.
    + split; [|done]. intros _. by apply IH.
Qed.

Lemma upto_gt_Some (s b r : string) :
  ReSpec.upto_gt s = Some (b, r) →
  s = b +:+ String ">" r ∧ Text.count_char ">" b = 0%nat.
Proof.
  revert b. induction s as [|c s IH]; intros b; [done|].
  cbn [ReSpec.upto_gt]. destruct (Ascii.eqb ">" c) eqn:E.
  - intros [= <- <-]. apply Ascii.eqb_eq in E. by subst c.
  - destruct (ReSpec.upto_gt s) as [[b' r']|]; [|done].
    intros [= <- <-]. destruct (IH b' eq_refl) as [-> Hb].
    split; [done|]. cbn [Text.count_char]. by rewrite E.
Qed.

Lemma upto_gt_app (b r : string) :
  Text.count_char ">" b = 0%nat →
  ReSpec.upto_gt (b +:+ String ">" r) = Some (b, r).
Proof.
  induction b as [|c b IH]; [done|]. rewrite append_cons.
  cbn [Text.count_char ReSpec.upto_gt].
  destruct (Ascii.eqb ">" c); [lia|]. intros H. by rewrite IH.
Qed.

Lemma length_append (a b : string) :
  String.length (a +:+ b) = (String.length a + String.length b)%nat.
Proof.
  induction a as [|x a IH]; [done|]. rewrite append_cons. simpl. by rewrite IH.
Qed.

Lemma match_tag_Some (s r : string) :
  ReSpec.match_tag s = Some r →
  (String.length r < String.length s)%nat ∧
  (Text.count_char ">" r ≤ Text.count_char ">" s)%nat ∧
  ∃ c s', s = String c s'.
Proof.
  destruct s as [|c s1]; [done|]. cbn [ReSpec.match_tag].
  destruct (Ascii.eqb "<" c); [|done].
  destruct (ReSpec.upto_gt s1) as [[[|d b] r']|] eqn:E; [done| |done].
  intros [= ->]. apply upto_gt_Some in E as [-> _].
  split; [|split; [|by eauto]].
  - cbn [String.length]. rewrite length_append. simpl. lia.
  - cbn [Text.count_char]. rewrite count_char_app. simpl. lia.
Qed.

Lemma scan_tag (f : nat) (p : option ascii) (s : string) :
  ReSpec.drop_matches (Re.scan (S f) tag_re p s) =
    match ReSpec.match_tag s with
    | Some r => ReSpec.drop_matches (Re.scan f tag_re (Some ">"%char) r)
    | None =>
        match s with
        | String c s' =>
            String c (ReSpec.drop_matches (Re.scan f tag_re (Some c) s'))
        | EmptyString => EmptyString
        end
    end.
Proof.
  cbn [Re.scan]. rewrite run_tag.
  destruct (ReSpec.match_tag s) as [r|] eqn:E; cbn [fmap option_fmap option_map].
  - apply match_tag_Some in E as (Hlen & _ & c & s' & ->).
    unfold Re.consumed. cbn [Re.rest Re.prev Re.groups].
    destruct (String.length (String c s') - String.length r)%nat as [|k] eqn:Ek;
      [simpl in *; lia|].
    by cbn [substring String.length].
  - by destruct s.
Qed.

Lemma drop_matches_count (f : nat) :
  ∀ (p : option ascii) (s : string),
    (Text.count_char ">" (ReSpec.drop_matches (Re.scan f tag_re p s))
     ≤ Text.count_char ">" s)%nat.
Proof.
  induction f as [|f IH]; intros p s; [simpl; lia|].
  rewrite scan_tag. destruct (ReSpec.match_tag s) as [r|] eqn:E.
  - apply match_tag_Some in E as (_ & Hc & _).
    specialize (IH (Some ">"%char) r). lia.
  - destruct s as [|c s']; [done|]. cbn [Text.count_char].
    specialize (IH (Some c) s'). lia.
Qed.

Lemma drop_matches_no_tag (f : nat) :
  ∀ (p : option ascii) (s pre suf : string),
    (String.length s < f)%nat →
    ReSpec.drop_matches (Re.scan f tag_re p s) = pre +:+ suf →
    ReSpec.match_tag suf = None.
Proof.
  induction f as [|f IH]; intros p s pre suf Hlen; [lia|].
  rewrite scan_tag. destruct (ReSpec.match_tag s) as [r|] eqn:E.
  - apply match_tag_Some in E as (Hr & _). apply IH. lia.
  - destruct s as [|c s'].
    + destruct pre; [|done]. change ("" +:+ suf) with suf. by intros <-.
    + simpl in Hlen. destruct pre as [|x pre].
      * change ("" +:+ suf) with suf. intros <-. clear IH. cbn [ReSpec.match_tag] in *.
        destruct (Ascii.eqb "<" c); [|done].
        destruct (ReSpec.upto_gt s') as [[[|d b] r]|] eqn:Es'; [|done|].
        -- apply upto_gt_Some in Es' as [-> _].
           destruct f as [|f]; [simpl in Hlen; lia|]. by rewrite scan_tag.
        -- apply upto_gt_None in Es'.
           pose proof (drop_matches_count f (Some c) s') as Hc.
           assert (ReSpec.upto_gt
                     (ReSpec.drop_matches (Re.scan f tag_re (Some c) s')) = None)
             as -> by (apply upto_gt_None; lia).
           done.
      * rewrite append_cons. intros [= _ H].
        assert (String.length s' < f)%nat as Hs' by lia.
        exact (IH _ _ _ _ Hs' H).
Qed.

Lemma contains_tag_match (v : string) :
  Text.contains_tag v →
  ∃ pre suf, v = pre +:+ suf ∧ ReSpec.match_tag suf ≠ None.
Proof.
  intros (pre & t & post & -> & body & -> & Hne & Hc).
  exists pre, (("<" +:+ body +:+ ">") +:+ post). split; [done|].
  assert (("<" +:+ body +:+ ">") +:+ post
          = String "<" (body +:+ String ">" post)) as ->.
  { change ("<" +:+ body +:+ ">") with (String "<" (body +:+ ">")).
    by rewrite append_cons, append_assoc. }
  cbn [ReSpec.match_tag Ascii.eqb Bool.eqb]. rewrite upto_gt_app by done.
  by destruct body.
Qed.

Lemma sub_tag_free (s : string) :
  ¬ Text.contains_tag (Re.sub tag_re "" s).
Proof.
  intros (pre & suf & H & Hm)%contains_tag_match. apply Hm.
  apply (drop_matches_no_tag (S (String.length s)) None s pre suf); [lia|].
  exact H.
Qed.

Lemma lstrip_suffix (s : string) : ∃ a, s = a +:+ Py.lstrip s.
Proof.
  induction s as [|c s [a IH]]; [by exists ""|]. cbn [Py.lstrip].
  destruct (Py.isspace c).
  - exists (String c a). rewrite append_cons. by rewrite <- IH.
  - by exists "".
Qed.

Lemma append_empty_r (s : string) : s +:+ "" = s.
Proof. induction s as [|c s IH]; [done|]. rewrite append_cons. by rewrite IH. Qed.

Lemma rstrip_prefix (s : string) : ∃ b, s = Py.rstrip s +:+ b.
Proof.
  induction s as [|c s [b IH]]; [by exists ""|]. cbn [Py.rstrip].
  destruct (Py.rstrip s) as [|x t].
  - destruct (Py.isspace c).
    + by exists (String c s).
    + exists b. rewrite append_cons. by rewrite <- IH.
  - exists b. rewrite append_cons. by rewrite <- IH.
Qed.

Lemma strip_keeps_tag_free (s : string) :
  ¬ Text.contains_tag s → ¬ Text.contains_tag (Py.strip s).
Proof.
  intros Hs (pre & t & post & H & Ht). apply Hs.
  destruct (lstrip_suffix s) as [a Ha]. unfold Py.strip in H.
  destruct (rstrip_prefix (Py.lstrip s)) as [b Hb].
  exists (a +:+ pre), t, (post +:+ b). split; [|done].
  rewrite Ha at 1. rewrite Hb at 1. rewrite H.
  by rewrite !append_assoc.
Qed.

Lemma first_char_lstrip (s : string) (c : ascii) :
  Text.first_char (Py.lstrip s) = Some c → Py.isspace c = false.
Proof.
  induction s as [|x s IH]; [done|]. cbn [Py.lstrip].
  destruct (Py.isspace x) eqn:E; [done|]. by intros [= <-].
Qed.

Lemma first_char_rstrip (s : string) (c : ascii) :
  Text.first_char (Py.rstrip s) = Some c → Text.first_char s = Some c.
Proof.
  destruct s as [|x s]; [done|]. cbn [Py.rstrip].
  destruct (Py.rstrip s); [|done]. by destruct (Py.isspace x).
Qed.

Lemma last_char_rstrip (s : string) (c : ascii) :
  Text.last_char (Py.rstrip s) = Some c → Py.isspace c = false.
Proof.
  induction s as [|x s IH]; [done|]. cbn [Py.rstrip].
  destruct (Py.rstrip s) as [|y t].
  - destruct (Py.isspace x) eqn:E; [done|]. by intros [= <-].
  - exact IH.
Qed.

Lemma strip_stripped (s : string) : Text.stripped (Py.strip s).
Proof.
  split; intros c H.
  - by apply first_char_rstrip, first_char_lstrip in H.
  - by apply last_char_rstrip in H.
Qed.

Lemma stored_text_clean (s : string) :
  let v := Py.strip (Re.sub tag_re "" s) in
  Text.stripped v ∧ ¬ Text.contains_tag v.
Proof.
  split; [apply strip_stripped | apply strip_keeps_tag_free, sub_tag_free].
Qed.

(** X19: whatever text the two lookups return has no whitespace at either
    end and contains no tag, that is no [<], followed by one or more
    characters other than [>], followed by [>]; this holds for every
    response, coordinate, index and id. *)
Theorem returned_text_is_clean (response : Response.t) (v : string) :
  ((∃ row col i, get_pdf_cell response row col i = Py.Return v) ∨
   (∃ cell_id,
      GetSpreadsheetCell.get_spreadsheet_cell response cell_id = Py.Return v)) →
  Text.stripped v ∧ ¬ Text.contains_tag v.
Proof.
  intros [(row & col & i & H)|(cell_id & H)].
  - unfold get_pdf_cell in H.
    destruct (table_chunks response) as [|t ts]; [done|].
    destruct (_ <=? i); [done|].
    destruct (Py.getitem _ i) as [table|e]; [|done].
    rewrite parse_grid_lookup in H.
    destruct (td_at _ row col) as [m|]; [|done].
    injection H as <-. apply stored_text_clean.
  - unfold GetSpreadsheetCell.get_spreadsheet_cell in H.
    destruct (table_chunks response) as [|t ts]; [done|].
    destruct (GetSpreadsheetCell.search (t :: ts) cell_id) as [w|] eqn:E;
      [|done].
    injection H as ->.
    apply search_Some in E as (_ & table & _ & _ & _ & E).
    unfold GetSpreadsheetCell.cell_text in E.
    rewrite (foldl_insert_last (λ m, Re.group m 1)
               (λ m, Py.strip (Re.sub GetSpreadsheetCell.tag_re ""
                                 (Re.group m 2)))) in E.
    rewrite lookup_empty in E. destruct (last _) as [m|]; [|done].
    injection E as <-. apply (stored_text_clean (Re.group m 2)).
Qed.

Lemma returned_text_is_clean_witness :
  get_pdf_cell MoreSamples3.styled_pdf 0 0 0 = Py.Return "Total" ∧
  Text.stripped "Total" ∧ ¬ Text.contains_tag "Total".
Proof.
  assert (get_pdf_cell MoreSamples3.styled_pdf 0 0 0 = Py.Return "Total")
    as H by (vm_compute; reflexivity).
  split; [exact H|].
  apply (returned_text_is_clean MoreSamples3.styled_pdf "Total").
  left. exists 0, 0, 0. exact H.
Defined.
